(** * Home Assistant client: entity resolution and request contract

    A shallow embedding of [ha_client.py] (class [HomeAssistantClient]) and
    the properties of its entity resolver, attribute reader, liveness check,
    service invoker and constructor.

    Python values decoded from JSON are a datatype [value]; dictionaries
    are finite maps; exceptions are an explicit outcome [Raise]; the
    network is a queue of pending replies together with the log of the
    requests that were sent. *)

From Stdlib Require Import ZArith Ascii String Floats.PrimFloat.
From stdpp Require Import gmap strings list fin_maps sorting pretty.

Open Scope string_scope.
Open Scope list_scope.
Open Scope Z_scope.

(** ** Python values *)

Module Py.

(** The values [json.loads] produces (and the ones a settings mapping
    holds): [None], booleans, integers, floats, strings, lists and
    string-keyed dictionaries. *)
#[warnings="-register-all"]
Inductive value : Type :=
| VNone
| VBool (b : bool)
| VInt (n : Z)
| VFloat (f : PrimFloat.float)
| VStr (s : string)
| VList (l : list value)
| VDict (d : gmap string value).

(** Exception classes the module can see.  [ConnectionError] is the
    built-in class (the source does not import the one of [requests]);
    [Timeout], [HTTPError] and [RequestsConnectionError] are subclasses of
    [RequestException]. *)
Inductive exn : Type :=
| KeyError
| TypeError
| AttributeError
| IndexError
| ValueError
| ConnectionError
| RequestException
| Timeout
| HTTPError
| RequestsConnectionError.

#[global] Instance exn_eq_dec : EqDecision exn.
Proof. solve_decision. Defined.

(** [isinstance e c]: an exception of class [e] is caught by a handler
    for class [c]. *)
Definition isinstance (e c : exn) : bool :=
  match c, e with
  | RequestException, (RequestException | Timeout | HTTPError | RequestsConnectionError) => true
  | _, _ => bool_decide (e = c)
  end.

(** Outcome of an expression: a value or a raised exception. *)
Inductive result (A : Type) : Type :=
| Ok (a : A)
| Raise (e : exn).
Arguments Ok {A} a.
Arguments Raise {A} e.

#[global] Instance result_ret : MRet result := λ A a, Ok a.
#[global] Instance result_bind : MBind result := λ A B k r,
  match r with
  | Ok a => k a
  | Raise e => Raise e
  end.

(** [try: r except classes: h] on a pure expression. *)
Definition try_except {A} (r : result A) (classes : list exn) (h : result A) : result A :=
  match r with
  | Ok a => Ok a
  | Raise e => if existsb (isinstance e) classes then h else Raise e
  end.

(** Truth value of an object, as tested by [if x:] and [x or y]. *)
Definition truthy (v : value) : bool :=
  match v with
  | VNone => false
  | VBool b => b
  | VInt n => negb (Z.eqb n 0)
  | VFloat f => negb (PrimFloat.eqb f PrimFloat.zero)
  | VStr s => negb (String.eqb s "")
  | VList l => match l with [] => false | _ => true end
  | VDict d => negb (bool_decide (d = ∅))
  end.

(** [a or b] *)
Definition py_or (a b : value) : value := if truthy a then a else b.

(** [v[k]] for a string key [k]: a dictionary lookup; any other object
    refuses a string index with [TypeError]. *)
Definition getitem (v : value) (k : string) : result value :=
  match v with
  | VDict d =>
      match d !! k with
      | Some x => Ok x
      | None => Raise KeyError
      end
  | _ => Raise TypeError
  end.

(** [l[i]] on a list of strings. *)
Definition getindex (l : list string) (i : nat) : result string :=
  match l !! i with
  | Some x => Ok x
  | None => Raise IndexError
  end.

(** The objects a [for] loop draws from [v]: the elements of a list, the
    keys of a dictionary (in the order of the finite map: a key is a
    string, so that the loops below fail alike on any of them), the
    characters of a string; other objects are not iterable. *)
Fixpoint chars (s : string) : list value :=
  match s with
  | EmptyString => []
  | String c r => VStr (String c EmptyString) :: chars r
  end.

Definition iterate (v : value) : result (list value) :=
  match v with
  | VList l => Ok l
  | VDict d => Ok ((λ kv, VStr kv.1) <$> map_to_list d)
  | VStr s => Ok (chars s)
  | _ => Raise TypeError
  end.

(** *** String methods *)

(** [s.split(sep)] for a one-character separator: never empty. *)
Fixpoint split (sep : ascii) (s : string) : list string :=
  match s with
  | EmptyString => [EmptyString]
  | String c r =>
      if Ascii.eqb c sep then EmptyString :: split sep r
      else match split sep r with
           | [] => [String c EmptyString]
           | x :: xs => String c x :: xs
           end
  end.

Definition lower_ascii (c : ascii) : ascii :=
  let n := nat_of_ascii c in
  if (Nat.leb 65 n && Nat.leb n 90)%bool then ascii_of_nat (n + 32) else c.

(** [s.lower()] (on the ASCII range). *)
Fixpoint lower (s : string) : string :=
  match s with
  | EmptyString => EmptyString
  | String c r => String (lower_ascii c) (lower r)
  end.

(** [s.startswith(p)] *)
Definition startswith (p s : string) : bool := String.prefix p s.

(** Method calls on an arbitrary object: only [str] has the method. *)
Definition str_split (v : value) (sep : ascii) : result (list string) :=
  match v with
  | VStr s => Ok (split sep s)
  | _ => Raise AttributeError
  end.

Definition str_lower (v : value) : result string :=
  match v with
  | VStr s => Ok (lower s)
  | _ => Raise AttributeError
  end.

Definition str_startswith (v : value) (p : string) : result bool :=
  match v with
  | VStr s => Ok (startswith p s)
  | _ => Raise AttributeError
  end.

(** [v == s] for a string [s]. *)
Definition eq_str (v : value) (s : string) : bool :=
  match v with
  | VStr t => String.eqb t s
  | _ => false
  end.

(** [p in s] on strings: [p] occurs in [s]. *)
Fixpoint is_substring (p s : string) : bool :=
  match s with
  | EmptyString => String.prefix p EmptyString
  | String _ r => String.prefix p s || is_substring p r
  end.

(** [x in v] for a string [x]: an element of a list equal to [x], a key
    of a dictionary, a piece of a string; other objects are no
    containers. *)
Definition contains (v : value) (x : string) : result bool :=
  match v with
  | VList l => Ok (existsb (λ y, eq_str y x) l)
  | VDict d => Ok (bool_decide (is_Some (d !! x)))
  | VStr s => Ok (is_substring x s)
  | _ => Raise TypeError
  end.

(** *** Stateful computations that may raise

    [M S A] runs on a state [S]; the state reached when an exception is
    raised is kept, as assignments made before a [raise] are in Python. *)
Definition M (S A : Type) : Type := S → S * result A.

Definition ret {S A} (a : A) : M S A := λ s, (s, Ok a).

Definition bind {S A B} (m : M S A) (k : A → M S B) : M S B := λ s,
  match m s with
  | (s', Ok a) => k a s'
  | (s', Raise e) => (s', Raise e)
  end.

Definition lift {S A} (r : result A) : M S A := λ s, (s, r).
Definition read {S} : M S S := λ s, (s, Ok s).
Definition write {S} (s : S) : M S unit := λ _, (s, Ok tt).

#[global] Instance M_ret {S} : MRet (M S) := λ A, ret.
#[global] Instance M_bind {S} : MBind (M S) := λ A B k m, bind m k.

(** [try: m except classes: h] *)
Definition try_catch {S A} (m : M S A) (classes : list exn) (h : M S A) : M S A := λ s,
  match m s with
  | (s', Raise e) => if existsb (isinstance e) classes then h s' else (s', Raise e)
  | r => r
  end.

(** [for x in l: body x] *)
Fixpoint for_each {S A} (l : list A) (body : A → M S unit) : M S unit :=
  match l with
  | [] => mret tt
  | x :: rest => body x;; for_each rest body
  end.

(** [keeps I m]: running [m] from a state in [I] ends in a state in [I],
    whether it returns or raises. *)
Definition keeps {S A} (I : S → Prop) (m : M S A) : Prop := ∀ s, I s → I (m s).1.

(** [raises_only P m]: every exception that leaves [m] is in [P]. *)
Definition raises_only {S A} (P : exn → Prop) (m : M S A) : Prop :=
  ∀ s e, (m s).2 = Raise e → P e.

End Py.
Export Py.

(** ** The fuzzy score *)

Module Fuzz.

(** Python's [str.split()] without argument: the maximal runs of
    non-blank characters. *)
Definition is_space (c : ascii) : bool :=
  let n := nat_of_ascii c in
  ((Nat.leb 9 n && Nat.leb n 13) || (Nat.leb 28 n && Nat.leb n 32))%bool.

Fixpoint words_aux (cur : string) (s : string) : list string :=
  match s with
  | EmptyString => if String.eqb cur "" then [] else [cur]
  | String c r =>
      if is_space c
      then (if String.eqb cur "" then words_aux "" r else cur :: words_aux "" r)
      else words_aux (cur +:+ String c EmptyString) r
  end.

Definition words (s : string) : list string := words_aux "" s.

(** [sorted] on strings: code-point order. *)
Definition str_le (a b : string) : Prop := String.leb a b = true.

#[global] Instance str_le_dec a b : Decision (str_le a b).
Proof. unfold str_le. apply _. Defined.

Definition sorted (l : list string) : list string := merge_sort str_le l.

(** [" ".join(l)] *)
Fixpoint join (l : list string) : string :=
  match l with
  | [] => ""
  | [x] => x
  | x :: rest => x +:+ " " +:+ join rest
  end.

Definition process_and_sort (s : string) : string := join (sorted (words s)).

(** Modelled from the spec: [fuzz.token_sort_ratio] belongs to the
    fuzzywuzzy library and is not in the repository source.  Section 4.2
    (step 3a) has it split both strings into word tokens, sort the tokens
    alphabetically, rejoin them, and apply a percentage similarity [ratio]
    to the two normalised strings; [ratio] itself is left open. *)
Definition token_sort_ratio (ratio : string → string → Z) (s1 s2 : string) : Z :=
  ratio (process_and_sort s1) (process_and_sort s2).

(** A stand-in for [ratio], used to run the resolver on concrete
    catalogs: twice the length of a longest common subsequence over the
    total length, in percent (equal strings score 100, an empty string
    scores 0).  Every theorem below quantifies over the scoring function. *)
Fixpoint lcs_row (x : ascii) (b : string) (prev : list nat) (left : nat) : list nat :=
  match b, prev with
  | String y b', pj :: ((pj1 :: _) as prev') =>
      let cur := if Ascii.eqb x y then S pj else Nat.max pj1 left in
      cur :: lcs_row x b' prev' cur
  | _, _ => []
  end.

Fixpoint lcs_rows (a b : string) (prev : list nat) : list nat :=
  match a with
  | EmptyString => prev
  | String x a' => lcs_rows a' b (O :: lcs_row x b prev O)
  end.

Definition lcs (a b : string) : nat :=
  List.last (lcs_rows a b (repeat O (S (String.length b)))) O.

Definition indel_ratio (a b : string) : Z :=
  if String.eqb a b then 100
  else if (Nat.eqb (String.length a) 0 || Nat.eqb (String.length b) 0)%bool then 0
  else (200 * Z.of_nat (lcs a b)) / Z.of_nat (String.length a + String.length b).

End Fuzz.

(** ** The client *)

Module Client.

(** Timeout time for HA requests *)
Definition TIMEOUT : Z := 10.

Inductive http_method : Type := GET | POST.

(** What [requests.get] / [requests.post] are called with. *)
Record request : Type := {
  meth : http_method;
  target : string;
  req_headers : gmap string string;
  data : option string;
  req_verify : option value;
  timeout : Z
}.

(** What they return: the status line and the outcome of [.json()]. *)
Record response : Type := {
  status_code : Z;
  json : result value
}.

(** The network: the requests sent so far and the outcome each further
    request will meet (a response, or an exception of the transport). *)
Record world : Type := {
  sent : list request;
  replies : list (result response)
}.

Definition send (r : request) : M world response := λ w,
  match replies w with
  | o :: rest => ({| sent := sent w ++ [r]; replies := rest |}, o)
  | [] => ({| sent := sent w ++ [r]; replies := [] |}, Raise RequestsConnectionError)
  end.

Definition get (u : string) (h : gmap string string) (v : option value) (t : Z) : M world response :=
  send {| meth := GET; target := u; req_headers := h; data := None; req_verify := v; timeout := t |}.

Definition post (u : string) (h : gmap string string) (d : string) (v : option value) (t : Z) : M world response :=
  send {| meth := POST; target := u; req_headers := h; data := Some d; req_verify := v; timeout := t |}.

(** Modelled from the spec: [Response.raise_for_status] belongs to the
    requests library and is not in the repository source.  Section 4.1 has
    a fetch fail with an HTTP-status error on a non-2xx response (the
    docstrings say: HTTPErrors if non-Ok status code). *)
Definition raise_for_status (r : response) : result unit :=
  if (Z.leb 200 (status_code r) && Z.ltb (status_code r) 300)%bool then Ok tt else Raise HTTPError.

Record client : Type := {
  ssl : value;
  verify : value;
  url : string;
  headers : gmap string string
}.

Section Runtime.

(** [fmt v] is the text an f-string puts for [{v}]; [dumps] is
    [json.dumps]; [token_sort_ratio] is the fuzzy score. *)
Variable fmt : value → string.
Variable dumps : value → string.
Variable token_sort_ratio : string → string → Z.

(** Lines 45-60: the constructor, on the mapping [config]. *)
Definition __init__ (config : value) : result client :=
  s ← getitem config "ssl";
  let ssl := py_or s (VBool false) in
  v ← getitem config "verify";
  let verify := py_or v (VBool true) in
  ip_address ← getitem config "ip_address";
  token ← getitem config "token";
  port_number ← getitem config "port_number";
  let url := if truthy ssl then "https://" +:+ fmt ip_address
             else "http://" +:+ fmt ip_address in
  let url := if truthy port_number then url +:+ ":" +:+ fmt port_number else url in
  Ok {| ssl := ssl; verify := verify; url := url;
        headers := {[ "Authorization" := "Bearer " +:+ fmt token;
                      "Content-Type" := "application/json" ]} |}.

(** Lines 62-76. Get state object *)
Definition _get_state (self : client) : M world value :=
  req ← (if truthy (ssl self)
         then get (url self +:+ "/api/states") (headers self) (Some (verify self)) TIMEOUT
         else get (url self +:+ "/api/states") (headers self) None TIMEOUT);
  lift (raise_for_status req);;
  lift (json req).

(** Lines 78-84. Get state form HA instance *)
Definition connected (self : client) : M world bool :=
  try_catch (_get_state self;; mret true)
            [Timeout; ConnectionError; RequestException]
            (mret false).

(** The dictionary literal of lines 109-115 and 121-127, its items
    evaluated in order. *)
Definition candidate (state : value) (best_score : Z) : result value :=
  id ← getitem state "entity_id";
  attrs ← getitem state "attributes";
  dev_name ← getitem attrs "friendly_name";
  st ← getitem state "state";
  attributes ← getitem state "attributes";
  Ok (VDict {[ "id" := id; "dev_name" := dev_name; "state" := st;
               "best_score" := VInt best_score; "attributes" := attributes ]}).

(** [if score > best_score: best_score = score; best_entity = {...}] on
    the pair [(best_score, best_entity)]. *)
Definition record_best (score : Z) (state : value) : M (Z * value) unit :=
  b ← read;
  if bool_decide (score > b.1)%Z then
    write (score, b.2);;
    e ← lift (candidate state score);
    write (score, e)
  else mret tt.

(** The body of the [try] (lines 100-127) for one [state]. *)
Definition match_state (entity : string) (types : list string) (state : value)
  : M (Z * value) unit :=
  eid ← lift (getitem state "entity_id");
  parts ← lift (str_split eid ".");
  domain ← lift (getindex parts 0);
  if bool_decide (domain ∈ types) then
    attrs ← lift (getitem state "attributes");
    name ← lift (getitem attrs "friendly_name");
    lname ← lift (str_lower name);
    record_best (token_sort_ratio entity lname) state;;
    eid ← lift (getitem state "entity_id");
    leid ← lift (str_lower eid);
    record_best (token_sort_ratio entity leid) state
  else mret tt.

(** Lines 95-130: the scan of the fetched [json_data]. *)
Definition scan_states (entity : string) (types : list string) (json_data : value)
  : result value :=
  let body : M (Z * value) value :=
    (if truthy json_data then
       states ← lift (iterate json_data);
       for_each states (λ state,
         try_catch (match_state entity types state) [KeyError] (mret tt))
     else mret tt);;
    b ← read;
    mret b.2 in
  (body (50, VNone)).2.

(** Lines 86-130. Find entity with specified name, fuzzy matching *)
Definition find_entity (self : client) (entity : string) (types : list string)
  : M world value :=
  json_data ← _get_state self;
  lift (scan_states entity types json_data).

(** Lines 142-163: the linear scan with its early [return]. *)
Fixpoint scan_attrs (entity : string) (states : list value) : result value :=
  match states with
  | [] => Ok VNone
  | attr :: rest =>
      eid ← getitem attr "entity_id";
      if eq_str eid entity then
        entity_attrs ← getitem attr "attributes";
        unit_measur ← try_except
          (eid ← getitem attr "entity_id";
           light ← str_startswith eid "light.";
           if (light : bool) then getitem entity_attrs "brightness"
           else getitem entity_attrs "unit_of_measurement")
          [KeyError] (Ok (VStr ""));
        sensor_name ← getitem entity_attrs "friendly_name";
        sensor_state ← getitem attr "state";
        Ok (VDict {[ "unit_measure" := unit_measur; "name" := sensor_name;
                     "state" := sensor_state ]})
      else scan_attrs entity rest
  end.

(** Lines 132-164. checking the entity attributes to be used in the
    response dialog. *)
Definition find_entity_attr (self : client) (entity : string) : M world value :=
  json_data ← _get_state self;
  lift (if truthy json_data then
          states ← iterate json_data;
          scan_attrs entity states
        else Ok VNone).

(** Lines 166-182. Execute service at HAServer *)
Definition execute_service (self : client) (domain service : string) (payload : value)
  : M world response :=
  req ← (if truthy (ssl self)
         then post (url self +:+ "/api/services/" +:+ domain +:+ "/" +:+ service)
                   (headers self) (dumps payload) (Some (verify self)) TIMEOUT
         else post (url self +:+ "/api/services/" +:+ domain +:+ "/" +:+ service)
                   (headers self) (dumps payload) None TIMEOUT);
  lift (raise_for_status req);;
  mret req.

(** Lines 184-200. Check if a component is loaded at the HA-Server *)
Definition find_component (self : client) (component : string) : M world bool :=
  req ← (if truthy (ssl self)
         then get (url self +:+ "/api/components") (headers self)
                  (Some (verify self)) TIMEOUT
         else get (url self +:+ "/api/components") (headers self) None TIMEOUT);
  lift (raise_for_status req);;
  components ← lift (json req);
  lift (contains components component).

(** Lines 202-232. Engage the conversation component at the Home
    Assistant server *)
Definition engage_conversation (self : client) (utterance : string) : M world value :=
  let data := VDict {[ "text" := VStr utterance ]} in
  req ← (if truthy (ssl self)
         then post (url self +:+ "/api/conversation/process") (headers self)
                   (dumps data) (Some (verify self)) TIMEOUT
         else post (url self +:+ "/api/conversation/process") (headers self)
                   (dumps data) None TIMEOUT);
  lift (raise_for_status req);;
  answer ← lift (json req);
  speech ← lift (getitem answer "speech");
  lift (getitem speech "plain").

End Runtime.

End Client.
Export Client.

(** ** Reading the resolver's scan declaratively *)

Module Resolve.

(** The domain of an entity id: the text before its first dot. *)
Fixpoint domain (s : string) : string :=
  match s with
  | EmptyString => EmptyString
  | String c r => if Ascii.eqb c "." then EmptyString else String c (domain r)
  end.

(** [field r k]: the value under key [k] of record [r] ([None] when there
    is none). *)
Definition field (r : value) (k : string) : value :=
  match r with
  | VDict d => default VNone (d !! k)
  | _ => VNone
  end.

(** The shape of one entry of [/api/states]: an object with a string
    [entity_id], a [state] and an [attributes] object whose
    [friendly_name], when there is one, is a string. *)
Definition entity_state (r : value) : bool :=
  match r with
  | VDict d =>
      match d !! "entity_id", d !! "state", d !! "attributes" with
      | Some (VStr _), Some _, Some (VDict a) =>
          match a !! "friendly_name" with
          | None | Some (VStr _) => true
          | Some _ => false
          end
      | _, _, _ => false
      end
  | _ => false
  end.

(** A record the scan can go through without a type error: an object
    whose [entity_id], when there is one, is a string, whose [attributes],
    when there are some, are an object, and whose [friendly_name], when
    there is one, is a string.  Nothing is asked of [state]. *)
Definition scannable (r : value) : bool :=
  match r with
  | VDict d =>
      match d !! "entity_id" with
      | None => true
      | Some (VStr _) =>
          match d !! "attributes" with
          | None => true
          | Some (VDict a) =>
              match a !! "friendly_name" with
              | None | Some (VStr _) => true
              | Some _ => false
              end
          | Some _ => false
          end
      | Some _ => false
      end
  | _ => false
  end.

(** The scores the scan computes for record [r]: none when its domain is
    not allowed or it has no friendly name, else the score of its friendly
    name followed by the score of its raw id. *)
Definition scores (tsr : string → string → Z) (entity : string) (types : list string)
    (r : value) : list Z :=
  match field r "entity_id", field (field r "attributes") "friendly_name" with
  | VStr eid, VStr name =>
      if bool_decide (domain eid ∈ types)
      then [tsr entity (lower name); tsr entity (lower eid)]
      else []
  | _, _ => []
  end.

(** The result built from record [r] at score [m]. *)
Definition resolved (r : value) (m : Z) : value :=
  VDict {[ "id" := field r "entity_id";
           "dev_name" := field (field r "attributes") "friendly_name";
           "state" := field r "state";
           "best_score" := VInt m;
           "attributes" := field r "attributes" ]}.

(** One comparison of the scan on the pair (best score, best entity). *)
Definition offer (r : value) (b : Z * value) (m : Z) : Z * value :=
  if bool_decide (m > b.1)%Z then (m, resolved r m) else b.

(** The comparisons one record contributes, and the whole scan read as a
    fold over the catalog. *)
Definition scan_step (tsr : string → string → Z) (entity : string) (types : list string)
    (b : Z * value) (r : value) : Z * value :=
  foldl (offer r) b (scores tsr entity types r).


(** What a resolver result must look like: a score above the floor, and
    a [dev_name] that is the [friendly_name] of its attributes. *)
Definition accepted (e : value) : Prop :=
  ∃ d n a name,
    e = VDict d ∧ d !! "best_score" = Some (VInt n) ∧ (50 < n)%Z ∧
    d !! "attributes" = Some (VDict a) ∧ a !! "friendly_name" = Some name ∧
    d !! "dev_name" = Some name.

(** The invariant of the pair (best score, best entity) during the scan. *)
Definition scan_inv (b : Z * value) : Prop :=
  (50 ≤ b.1)%Z ∧ (b.2 = VNone ∨ accepted b.2).

(** A record the scan passes over: no [entity_id], or a string id whose
    domain is not allowed. *)
Definition excluded (types : list string) (r : value) : bool :=
  match r with
  | VDict d =>
      match d !! "entity_id" with
      | None => true
      | Some (VStr eid) => negb (bool_decide (domain eid ∈ types))
      | Some _ => false
      end
  | _ => false
  end.

(** A record with a string id but no friendly name to look up. *)
Definition nameless (r : value) : bool :=
  match r with
  | VDict d =>
      match d !! "entity_id", d !! "attributes" with
      | Some (VStr _), None => true
      | Some (VStr _), Some (VDict a) => bool_decide (a !! "friendly_name" = None)
      | _, _ => false
      end
  | _ => false
  end.

(** A record whose [entity_id] is there and differs from [eid]. *)
Definition other_id (eid : string) (r : value) : bool :=
  match r with
  | VDict d =>
      match d !! "entity_id" with
      | Some v => negb (eq_str v eid)
      | None => false
      end
  | _ => false
  end.

(** The attribute the reader reports as unit for id [eid]. *)
Definition unit_attribute (eid : string) : string :=
  if bool_decide (domain eid = "light") then "brightness" else "unit_of_measurement".

Definition is_bool (v : value) : bool :=
  match v with
  | VBool _ => true
  | _ => false
  end.

(** A connection failure or a timeout, as opposed to an answer with an
    error status. *)
Definition transport_failure (e : exn) : bool :=
  match e with
  | Timeout | ConnectionError | RequestsConnectionError => true
  | _ => false
  end.

(** The result comes from the catalog: it is built from one of the
    records, at one of the scores of that record, above the floor. *)
Definition from_catalog (tsr : string → string → Z) (entity : string)
    (types : list string) (catalog : list value) (e : value) : Prop :=
  ∃ r m, r ∈ catalog ∧ m ∈ scores tsr entity types r ∧ 50 < m ∧ e = resolved r m.

Definition scan_inv_in (tsr : string → string → Z) (entity : string)
    (types : list string) (catalog : list value) (b : Z * value) : Prop :=
  50 ≤ b.1 ∧ (b.2 = VNone ∨ from_catalog tsr entity types catalog b.2).


(** One operation sent the request [rq] and took one reply. *)
Definition one_request (w w' : world) (rq : request) : Prop :=
  sent w' = sent w ++ [rq] ∧ replies w' = tail (replies w).

(** The request of an operation of [self]: the target and body are its
    own, the headers, the verification switch and the timeout are shared. *)
Definition request_of (self : client) (m : http_method) (path : string)
    (body : option string) : request :=
  {| meth := m; target := url self +:+ path; req_headers := headers self;
     data := body;
     req_verify := if truthy (ssl self) then Some (verify self) else None;
     timeout := 10 |}.

(** A payload that is not a list. *)
Definition is_list (v : value) : bool :=
  match v with
  | VList _ => true
  | _ => false
  end.

Definition is_str (v : value) : bool :=
  match v with
  | VStr _ => true
  | _ => false
  end.

End Resolve.
Export Resolve.

(** ** Concrete clients, catalogs and networks *)

Module Demo.

Definition show (v : value) : string :=
  match v with
  | VStr s => s
  | VInt n => pretty n
  | VNone => "None"
  | VBool true => "True"
  | VBool false => "False"
  | _ => ""
  end.

Definition tsr : string → string → Z := Fuzz.token_sort_ratio Fuzz.indel_ratio.

Definition entry (eid name st : string) (extra : gmap string value) : value :=
  VDict {[ "entity_id" := VStr eid; "state" := VStr st;
           "attributes" := VDict (<["friendly_name" := VStr name]> extra) ]}.

Definition unnamed (eid st : string) : value :=
  VDict {[ "entity_id" := VStr eid; "state" := VStr st; "attributes" := VDict ∅ ]}.

Definition config (ssl verify : value) : value :=
  VDict {[ "ssl" := ssl; "verify" := verify; "ip_address" := VStr "10.0.0.2";
           "token" := VStr "abc"; "port_number" := VInt 8123 ]}.

Definition ha : client :=
  {| ssl := VBool false; verify := VBool true; url := "http://10.0.0.2:8123";
     headers := {[ "Authorization" := "Bearer abc";
                   "Content-Type" := "application/json" ]} |}.

(** A server that answers the next request with status [code] and body [j]. *)
Definition answering (code : Z) (j : value) : world :=
  {| sent := []; replies := [Ok {| status_code := code; json := Ok j |}] |}.

Definition serving (catalog : list value) : world := answering 200 (VList catalog).

Definition outside_temp : value :=
  entry "sensor.outside_temp" "Outside Temperature" "21.5"
        {[ "unit_of_measurement" := VStr "C" ]}.
Definition hall_lamp : value := entry "light.hall" "Hall Lamp" "off" ∅.
Definition kitchen_lamp : value := entry "light.kitchen" "Kitchen Lamp" "on" ∅.
Definition kitchen_lamp_2 : value := entry "light.kitchen_2" "kitchen lamp" "off" ∅.
Definition lamp_attributes : gmap string value :=
  {[ "brightness" := VInt 80; "friendly_name" := VStr "Lamp" ]}.
Definition lamp_record : gmap string value :=
  {[ "entity_id" := VStr "light.lamp"; "state" := VStr "on";
     "attributes" := VDict lamp_attributes ]}.
Definition lamp : value := VDict lamp_record.

(** An entry that lost its [state]. *)
Definition stateless_lamp : value :=
  VDict {[ "entity_id" := VStr "light.kitchen";
           "attributes" := VDict {[ "friendly_name" := VStr "Kitchen Lamp" ]} ]}.

Definition porch_record : gmap string value :=
  {[ "entity_id" := VStr "light.porch"; "state" := VStr "on"; "attributes" := VDict ∅ ]}.
Definition porch : value := VDict porch_record.

(** An entry without id, and one whose friendly name is [null]. *)
Definition anonymous : value :=
  VDict {[ "state" := VStr "on"; "attributes" := VDict ∅ ]}.
Definition null_name_record : gmap string value :=
  {[ "entity_id" := VStr "light.attic"; "state" := VStr "on";
     "attributes" := VDict {[ "friendly_name" := VNone ]} ]}.
Definition null_name : value := VDict null_name_record.

(** The answer of the conversation endpoint. *)
Definition speech (text : string) : value :=
  VDict {[ "speech" := VDict {[ "plain" := VStr text ]} ]}.

End Demo.

(** ** Running the monad *)

Section MonadFacts.
Context {S : Type}.

Lemma run_bind {A B} (m : M S A) (k : A → M S B) s :
  (m ≫= k) s = match m s with
               | (s', Ok a) => k a s'
               | (s', Raise e) => (s', Raise e)
               end.
Proof. reflexivity. Qed.

Lemma run_lift {A B} (r : result A) (k : A → M S B) s :
  (lift r ≫= k) s = match r with
                    | Ok a => k a s
                    | Raise e => (s, Raise e)
                    end.
Proof. by destruct r. Qed.

Lemma for_each_app {A} (l1 l2 : list A) (body : A → M S unit) s :
  for_each (l1 ++ l2) body s =
  match for_each l1 body s with
  | (s', Ok _) => for_each l2 body s'
  | (s', Raise e) => (s', Raise e)
  end.
Proof.
  revert s. induction l1 as [|x l1 IH]; intros s; simpl; [done|].
  rewrite !run_bind. destruct (body x s) as [s1 [[]|e]]; [apply IH | done].
Qed.

(** A loop whose body leaves the state alone leaves it alone. *)
Lemma for_each_idle {A} (l : list A) (body : A → M S unit) :
  Forall (λ x, ∀ s, body x s = (s, Ok tt)) l →
  ∀ s, for_each l body s = (s, Ok tt).
Proof.
  induction 1 as [|x l Hx _ IH]; intros s; simpl; [done|].
  by rewrite run_bind, Hx, IH.
Qed.

(** State invariants are carried through [bind], [try] and [for]. *)

Lemma keeps_lift {A} (I : S → Prop) (r : result A) : keeps I (lift r).
Proof. by intros s Hs. Qed.

Lemma keeps_ret {A} (I : S → Prop) (a : A) : keeps I (mret a : M S A).
Proof. by intros s Hs. Qed.

Lemma keeps_bind {A B} (I : S → Prop) (m : M S A) (k : A → M S B) :
  keeps I m → (∀ a, keeps I (k a)) → keeps I (m ≫= k).
Proof.
  intros Hm Hk s Hs. rewrite run_bind. specialize (Hm s Hs).
  destruct (m s) as [s1 [a|e]]; simpl in *; [by apply Hk | done].
Qed.

Lemma keeps_try_catch {A} (I : S → Prop) (m h : M S A) classes :
  keeps I m → keeps I h → keeps I (try_catch m classes h).
Proof.
  intros Hm Hh s Hs. unfold try_catch. specialize (Hm s Hs).
  destruct (m s) as [s1 [a|e]]; simpl in *; [done|].
  destruct (existsb _ _); [by apply Hh | done].
Qed.

Lemma keeps_for_each {A} (I : S → Prop) (l : list A) (body : A → M S unit) :
  (∀ x, keeps I (body x)) → keeps I (for_each l body).
Proof.
  intros Hb. induction l as [|x l IH]; simpl; [apply keeps_ret|].
  apply keeps_bind; [apply Hb | intros _; apply IH].
Qed.

(** Exceptions that can leave a computation. *)

Lemma raises_only_for_each {A} P (l : list A) (body : A → M S unit) :
  (∀ x, raises_only P (body x)) → raises_only P (for_each l body).
Proof.
  intros Hb. induction l as [|x l IH]; intros s e; simpl; [done|].
  rewrite run_bind. destruct (body x s) as [s1 [[]|e1]] eqn:Hx; simpl.
  - apply IH.
  - intros [= <-]. apply (Hb x s). by rewrite Hx.
Qed.

Lemma raises_only_try_pass (m : M S unit) c :
  raises_only (λ e, e ≠ c) (try_catch m [c] (mret tt)).
Proof.
  intros s e. unfold try_catch. destruct (m s) as [s1 [[]|e1]]; simpl; [done|].
  rewrite orb_false_r. destruct (isinstance e1 c) eqn:Hi; simpl; [done|].
  intros [= <-] ->. destruct c; discriminate.
Qed.

End MonadFacts.

(** ** Strings *)

Lemma split_domain s : split "." s !! 0%nat = Some (domain s).
Proof.
  induction s as [|c r IH]; simpl; [done|].
  destruct (Ascii.eqb c "."); [done|].
  destruct (split "." r) as [|x xs]; simpl in *; [done|]. by injection IH as ->.
Qed.

Lemma getindex_split s : getindex (split "." s) 0 = Ok (domain s).
Proof. unfold getindex. by rewrite split_domain. Qed.

(** ** The resolver keeps its invariant on every input *)

Section Scan.
Variable tsr : string → string → Z.
Variables (entity : string) (types : list string).

Lemma candidate_accepted state m e :
  candidate state m = Ok e → 50 < m → accepted e.
Proof.
  unfold candidate. intros H Hm.
  destruct state as [| | | | | |d]; try discriminate. simpl in H.
  destruct (d !! "entity_id") as [i|]; [simpl in H|discriminate].
  destruct (d !! "attributes") as [attrs|]; [simpl in H|discriminate].
  destruct attrs as [| | | | | |a]; try discriminate. simpl in H.
  destruct (a !! "friendly_name") as [name|] eqn:Hn; [simpl in H|discriminate].
  destruct (d !! "state") as [st|]; [simpl in H|discriminate].
  injection H as <-. eexists _, m, a, name. split; [reflexivity|].
  by repeat split.
Qed.

Lemma record_best_keeps m state : keeps scan_inv (record_best m state).
Proof.
  intros [bs be] [Hbs Hbe]. unfold record_best. rewrite run_bind. simpl in *.
  case_bool_decide as Hm; [|done].
  rewrite run_bind. simpl. rewrite run_bind. simpl.
  destruct (candidate state m) as [e|x] eqn:He; simpl.
  - split; simpl; [lia|]. right. apply (candidate_accepted _ _ _ He). lia.
  - split; simpl; [lia | done].
Qed.

Lemma match_state_keeps state : keeps scan_inv (match_state tsr entity types state).
Proof.
  unfold match_state.
  repeat first
    [ apply keeps_lift | apply keeps_ret | apply record_best_keeps
    | apply keeps_bind; [|intros ?] | case_bool_decide ].
Qed.

Lemma scan_states_accepted json_data e :
  scan_states tsr entity types json_data = Ok e → e = VNone ∨ accepted e.
Proof.
  unfold scan_states. rewrite run_bind.
  set (loop := if truthy json_data then _ else _).
  assert (keeps scan_inv loop) as Hk.
  { unfold loop. destruct (truthy json_data); [|apply keeps_ret].
    apply keeps_bind; [apply keeps_lift|]. intros states.
    apply keeps_for_each. intros state.
    apply keeps_try_catch; [apply match_state_keeps | apply keeps_ret]. }
  specialize (Hk (50, VNone)). destruct (loop (50, VNone)) as [b [[]|x]]; [|done].
  simpl. intros [= <-]. apply Hk. split; [done | by left].
Qed.

(** No [KeyError] leaves the scan. *)
Lemma scan_states_no_KeyError json_data :
  scan_states tsr entity types json_data ≠ Raise KeyError.
Proof.
  unfold scan_states. rewrite run_bind.
  set (loop := if truthy json_data then _ else _).
  assert (raises_only (λ e, e ≠ KeyError) loop) as Hr.
  { unfold loop. destruct (truthy json_data); [|by intros s e].
    intros s e. rewrite run_bind.
    destruct json_data; simpl; try by intros [= <-].
    all: revert s e; apply (raises_only_for_each (λ e, e ≠ KeyError)).
    all: intros state; apply raises_only_try_pass. }
  specialize (Hr (50, VNone)). destruct (loop (50, VNone)) as [b [[]|x]]; simpl in *; [done|].
  intros [= ->]. by apply (Hr KeyError).
Qed.

End Scan.

(** ** The scan on well-formed records *)

Section ScanSteps.
Variable tsr : string → string → Z.
Variables (entity : string) (types : list string).

#[local] Abbreviation try_match r :=
  (try_catch (match_state tsr entity types r) [KeyError] (mret tt)).

Lemma try_match_excluded r b : excluded types r = true → try_match r b = (b, Ok tt).
Proof.
  unfold excluded. destruct r as [| | | | | |d]; try discriminate.
  destruct (d !! "entity_id") as [[| | | |eid| |]|] eqn:Hid; try discriminate;
    intros Hdom; unfold try_catch, match_state; rewrite run_lift;
    simpl getitem; rewrite Hid; [|done].
  cbv beta iota. rewrite run_lift. simpl str_split. cbv beta iota.
  rewrite run_lift, getindex_split. cbv beta iota.
  apply negb_true_iff in Hdom. by rewrite Hdom.
Qed.

Lemma try_match_nameless r b : nameless r = true → try_match r b = (b, Ok tt).
Proof.
  unfold nameless. destruct r as [| | | | | |d]; try discriminate.
  destruct (d !! "entity_id") as [[| | | |eid| |]|] eqn:Hid; try discriminate.
  intros Hattrs.
  unfold try_catch, match_state. rewrite run_lift. simpl getitem. rewrite Hid.
  cbv beta iota. rewrite run_lift. simpl str_split. cbv beta iota.
  rewrite run_lift, getindex_split. cbv beta iota.
  case_bool_decide; [|done]. rewrite run_lift.
  destruct (d !! "attributes") as [[| | | | | |a]|] eqn:Ha; try discriminate; [|done].
  cbv beta iota. rewrite run_lift. simpl getitem.
  apply bool_decide_eq_true_1 in Hattrs. by rewrite Hattrs.
Qed.

Lemma record_best_offer r m b :
  candidate r m = Ok (resolved r m) → record_best m r b = (offer r b m, Ok tt).
Proof.
  intros Hc. unfold record_best, offer. rewrite run_bind. simpl.
  case_bool_decide; [|done]. rewrite run_bind. simpl. by rewrite run_lift, Hc.
Qed.

Lemma try_match_entity_state r b :
  entity_state r = true → try_match r b = (scan_step tsr entity types b r, Ok tt).
Proof.
  unfold entity_state, scan_step, scores. intros Hr.
  destruct r as [| | | | | |d]; try discriminate.
  destruct (d !! "entity_id") as [[| | | |eid| |]|] eqn:Hid; try discriminate.
  destruct (d !! "state") as [st|] eqn:Hst; try discriminate.
  destruct (d !! "attributes") as [[| | | | | |a]|] eqn:Ha; try discriminate.
  assert (∀ m, is_Some (a !! "friendly_name") →
               candidate (VDict d) m = Ok (resolved (VDict d) m)) as Hc.
  { intros m [name Hn]. unfold candidate, resolved. simpl. rewrite Hid, Ha, Hst. simpl.
    by rewrite Hn. }
  unfold try_catch, match_state. rewrite run_lift. simpl getitem. rewrite Hid.
  cbv beta iota. rewrite run_lift. simpl str_split. cbv beta iota.
  rewrite run_lift, getindex_split. cbv beta iota.
  simpl field. rewrite Hid, Ha. simpl default. simpl field.
  case_bool_decide.
  - rewrite run_lift. cbv beta iota. rewrite run_lift. simpl getitem.
    destruct (a !! "friendly_name") as [[| | | |name| |]|] eqn:Hn; try discriminate.
    + cbv beta iota. rewrite run_lift. simpl str_lower. cbv beta iota.
      rewrite run_bind, record_best_offer by (apply Hc; eauto).
      rewrite run_lift. cbv beta iota.
      rewrite run_lift. simpl str_lower. cbv beta iota.
      rewrite record_best_offer by (apply Hc; eauto).
      simpl. by rewrite bool_decide_eq_true_2.
    + done.
  - rewrite bool_decide_eq_false_2 by done.
    by destruct (default VNone (a !! "friendly_name")).
Qed.

(** What a run of comparisons can do to the pair. *)
Lemma offers_cases r ss b :
  foldl (offer r) b ss = b ∨
  ∃ s, s ∈ ss ∧ b.1 < s ∧ (foldl (offer r) b ss).1 = s.
Proof.
  revert b. induction ss as [|s ss IH]; intros b; simpl; [by left|].
  unfold offer at 2 4. case_bool_decide as Hs.
  - right. destruct (IH (s, resolved r s)) as [-> | (s' & Hin & Hlt & ->)].
    + exists s. split; [left | simpl; lia].
    + exists s'. split; [by right | simpl in *; lia].
  - destruct (IH b) as [-> | (s' & Hin & Hlt & ->)]; [by left|].
    right. exists s'. split; [by right | done].
Qed.

(** On a record without [state] the dictionary cannot be built. *)
Lemma record_best_stateless d m b :
  d !! "state" = None →
  is_Some (d !! "entity_id") →
  (∃ a, d !! "attributes" = Some (VDict a) ∧ is_Some (a !! "friendly_name")) →
  record_best m (VDict d) b
  = if bool_decide (m > b.1) then ((m, b.2), Raise KeyError) else (b, Ok tt).
Proof.
  intros Hst [i Hid] (a & Ha & [name Hname]). unfold record_best. rewrite run_bind. simpl.
  case_bool_decide; [|done]. rewrite run_bind. simpl. rewrite run_lift.
  unfold candidate. simpl. rewrite Hid. simpl. rewrite Ha. simpl. rewrite Hname. simpl.
  by rewrite Hst.
Qed.

(** A scannable record never stops the scan; it leaves the pair alone or
    raises the best score to one of its scores. *)
Lemma try_match_scannable r b :
  scannable r = true →
  ∃ b', try_match r b = (b', Ok tt) ∧
        (b' = b ∨ ∃ s, s ∈ scores tsr entity types r ∧ b.1 < s ∧ b'.1 = s).
Proof.
  intros Hr.
  destruct (excluded types r) eqn:Hex.
  { exists b. split; [by apply try_match_excluded | by left]. }
  destruct (nameless r) eqn:Hnl.
  { exists b. split; [by apply try_match_nameless | by left]. }
  destruct (entity_state r) eqn:Hes.
  { exists (scan_step tsr entity types b r).
    split; [by apply try_match_entity_state | apply offers_cases]. }
  unfold scannable, excluded, nameless, entity_state, scores in *.
  destruct r as [| | | | | |d]; try discriminate.
  destruct (d !! "entity_id") as [[| | | |eid| |]|] eqn:Hid; try discriminate.
  destruct (d !! "attributes") as [[| | | | | |a]|] eqn:Ha; try discriminate.
  destruct (a !! "friendly_name") as [[| | | |name| |]|] eqn:Hname; try discriminate.
  destruct (d !! "state") as [st|] eqn:Hst; [discriminate|].
  apply negb_false_iff, bool_decide_eq_true_1 in Hex. clear Hr Hnl Hes.
  assert (∀ m b0, record_best m (VDict d) b0
            = if bool_decide (m > b0.1) then ((m, b0.2), Raise KeyError)
              else (b0, Ok tt)) as Hrb.
  { intros m b0. apply record_best_stateless; eauto. }
  simpl field. rewrite Hid, Ha. simpl default. simpl field. rewrite Hname. simpl default.
  rewrite bool_decide_eq_true_2 by done.
  unfold try_catch, match_state. rewrite run_lift. simpl getitem. rewrite Hid.
  cbv beta iota. rewrite run_lift. simpl str_split. cbv beta iota.
  rewrite run_lift, getindex_split. cbv beta iota.
  rewrite bool_decide_eq_true_2 by done.
  rewrite run_lift. simpl getitem. rewrite Ha. cbv beta iota.
  rewrite run_lift. simpl getitem. rewrite Hname. cbv beta iota.
  rewrite run_lift. simpl str_lower. cbv beta iota.
  rewrite run_bind, Hrb. case_bool_decide as H1.
  - eexists. split; [reflexivity|]. right.
    exists (tsr entity (lower name)). split; [left | split; [lia | done]].
  - rewrite run_lift. cbv beta iota. rewrite run_lift. simpl str_lower. cbv beta iota.
    rewrite Hrb. case_bool_decide as H2.
    + eexists. split; [reflexivity|]. right.
      exists (tsr entity (lower eid)). split; [right; left | split; [lia | done]].
    + exists b. split; [done | by left].
Qed.

Lemma scan_prefix_below pre b m :
  Forall (λ x, scannable x = true) pre →
  Forall (λ x, Forall (λ s, s < m) (scores tsr entity types x)) pre →
  b.1 < m →
  ∃ b1, for_each pre (λ r, try_match r) b = (b1, Ok tt) ∧ b1.1 < m.
Proof.
  intros Hsc. revert b. induction Hsc as [|x pre Hx _ IH]; intros b Hlt Hb; simpl.
  { by exists b. }
  apply Forall_cons in Hlt as [Hxlt Hlt].
  destruct (try_match_scannable x b Hx) as (b' & Hrun & Hb').
  rewrite run_bind, Hrun. apply IH; [done|].
  destruct Hb' as [-> | (s & Hin & _ & ->)]; [done|].
  by apply (proj1 (Forall_forall _ _) Hxlt).
Qed.

Lemma scan_suffix_idle post b :
  Forall (λ x, scannable x = true) post →
  Forall (λ x, Forall (λ s, s ≤ b.1) (scores tsr entity types x)) post →
  for_each post (λ r, try_match r) b = (b, Ok tt).
Proof.
  intros Hsc. induction Hsc as [|x post Hx _ IH]; intros Hle; simpl; [done|].
  apply Forall_cons in Hle as [Hxle Hle].
  destruct (try_match_scannable x b Hx) as (b' & Hrun & Hb').
  rewrite run_bind, Hrun.
  destruct Hb' as [-> | (s & Hin & Hlt & _)]; [by apply IH|].
  apply (proj1 (Forall_forall _ _) Hxle) in Hin. lia.
Qed.


(** A record that is passed over can be removed from the catalog. *)
Lemma scan_states_skip pre r post :
  (∀ b, try_match r b = (b, Ok tt)) →
  scan_states tsr entity types (VList (pre ++ r :: post))
  = scan_states tsr entity types (VList (pre ++ post)).
Proof.
  intros Hskip. unfold scan_states. rewrite !run_bind.
  assert (∀ b, for_each (pre ++ r :: post) (λ r, try_match r) b
               = for_each (pre ++ post) (λ r, try_match r) b) as Hloop.
  { intros b. rewrite !for_each_app.
    destruct (for_each pre _ b) as [b1 [[]|e]]; [|done].
    simpl. by rewrite run_bind, Hskip. }
  assert (truthy (VList (pre ++ r :: post)) = true) as -> by by destruct pre.
  rewrite run_lift. simpl iterate. cbv beta iota. rewrite Hloop.
  destruct (pre ++ post) as [|x l] eqn:Hl.
  - done.
  - change (truthy (VList (x :: l))) with true. cbv iota.
    by rewrite run_lift.
Qed.

End ScanSteps.

(** ** Reaching the maximum *)

(** Once a record offers [m], and nothing it offers is larger, the pair
    holds [m] and that record, whatever smaller score it held before. *)
Lemma offers_reach r ss b m :
  Forall (λ s, s ≤ m) ss →
  b = (m, resolved r m) ∨ (b.1 < m ∧ m ∈ ss) →
  foldl (offer r) b ss = (m, resolved r m).
Proof.
  intros Hss. revert b. induction Hss as [|s ss Hs _ IH]; intros b Hb; simpl.
  - destruct Hb as [-> | [_ Hm]]; [done|]. by apply elem_of_nil in Hm.
  - apply IH. unfold offer. destruct Hb as [-> | [Hb Hm]].
    + left. simpl. by rewrite bool_decide_eq_false_2 by lia.
    + apply elem_of_cons in Hm as [<- | Hm].
      * left. by rewrite bool_decide_eq_true_2 by lia.
      * case_bool_decide.
        -- destruct (decide (s = m)) as [-> | Hne]; [by left|].
           right. split; [simpl; lia | done].
        -- by right.
Qed.

(** ** The fetch in front of the scans *)

Lemma find_entity_fetched tsr self entity types w w' json_data :
  _get_state self w = (w', Ok json_data) →
  find_entity tsr self entity types w = (w', scan_states tsr entity types json_data).
Proof. intros H. unfold find_entity. by rewrite run_bind, H. Qed.

Lemma find_entity_attr_fetched self entity w w' catalog :
  _get_state self w = (w', Ok (VList catalog)) →
  find_entity_attr self entity w = (w', scan_attrs entity catalog).
Proof.
  intros H. unfold find_entity_attr. rewrite run_bind, H. by destruct catalog.
Qed.

Lemma find_entity_result tsr self entity types w w' e :
  find_entity tsr self entity types w = (w', Ok e) →
  ∃ json_data, scan_states tsr entity types json_data = Ok e.
Proof.
  unfold find_entity. rewrite run_bind.
  destruct (_get_state self w) as [w1 [j|x]]; [|done].
  intros [= _ H]. by exists j.
Qed.

(** ** Entity resolver *)

(** C1. Whatever the fetched catalog and the utterance, an entity returned
    by [find_entity] carries a [best_score] strictly above the floor of 50:
    a score of 50 or less is never accepted. *)
Theorem find_entity_above_floor tsr self entity types w w' e :
  find_entity tsr self entity types w = (w', Ok e) →
  e ≠ VNone →
  ∃ d n, e = VDict d ∧ d !! "best_score" = Some (VInt n) ∧ 50 < n.
Proof.
  intros Hrun Hsome. apply find_entity_result in Hrun as [j Hj].
  apply scan_states_accepted in Hj as [-> | (d & n & a & name & -> & Hn & Hlt & _)]; [done|].
  by exists d, n.
Qed.

Lemma find_entity_above_floor_witness :
  ∃ w' e,
    find_entity Demo.tsr Demo.ha "outside temperature sensor" ["sensor"]
                (Demo.serving [Demo.outside_temp]) = (w', Ok e) ∧
    e ≠ VNone ∧
    ∃ d n, e = VDict d ∧ d !! "best_score" = Some (VInt n) ∧ 50 < n.
Proof.
  eexists _, _. split; [vm_compute; reflexivity|]. split; [discriminate|].
  eapply (find_entity_above_floor Demo.tsr Demo.ha "outside temperature sensor"
            ["sensor"] (Demo.serving [Demo.outside_temp]));
    [vm_compute; reflexivity | discriminate].
Defined.

(** C10. Whatever the fetched catalog and the utterance, an entity returned
    by [find_entity] has a [friendly_name] key in its attributes, and its
    [dev_name] is that friendly name: a record without one is never the
    result, however well its raw id scores. *)
Theorem find_entity_has_friendly_name tsr self entity types w w' e :
  find_entity tsr self entity types w = (w', Ok e) →
  e ≠ VNone →
  ∃ d a name,
    e = VDict d ∧ d !! "attributes" = Some (VDict a) ∧
    a !! "friendly_name" = Some name ∧ d !! "dev_name" = Some name.
Proof.
  intros Hrun Hsome. apply find_entity_result in Hrun as [j Hj].
  apply scan_states_accepted in Hj
    as [-> | (d & n & a & name & -> & _ & _ & Ha & Hname & Hdev)]; [done|].
  by exists d, a, name.
Qed.

(** The utterance is the raw id of a record without a friendly name; the
    resolver returns the named record after it. *)
Lemma find_entity_has_friendly_name_witness :
  ∃ w' e,
    find_entity Demo.tsr Demo.ha "light.kitchen" ["light"]
                (Demo.serving [Demo.unnamed "light.kitchen" "on"; Demo.kitchen_lamp_2])
      = (w', Ok e) ∧
    e ≠ VNone ∧
    ∃ d a name,
      e = VDict d ∧ d !! "attributes" = Some (VDict a) ∧
      a !! "friendly_name" = Some name ∧ d !! "dev_name" = Some name.
Proof.
  eexists _, _. split; [vm_compute; reflexivity|]. split; [discriminate|].
  eapply (find_entity_has_friendly_name Demo.tsr Demo.ha "light.kitchen" ["light"]
            (Demo.serving [Demo.unnamed "light.kitchen" "on"; Demo.kitchen_lamp_2]));
    [vm_compute; reflexivity | discriminate].
Defined.

(** C3. On a catalog taken in the order the server returned it,
    [find_entity] returns the first record that reaches the maximum score:
    when the entity state [r] offers a score [m] above 50, every record
    before it stays strictly below [m] and no record from [r] on exceeds
    [m], the result is built from [r] at score [m], also when later records
    tie with it. *)
Theorem find_entity_first_maximum tsr self entity types w w' pre r post m :
  _get_state self w = (w', Ok (VList (pre ++ r :: post))) →
  Forall (λ x, scannable x = true) (pre ++ post) →
  entity_state r = true →
  m ∈ scores tsr entity types r →
  50 < m →
  Forall (λ x, Forall (λ s, s < m) (scores tsr entity types x)) pre →
  Forall (λ x, Forall (λ s, s ≤ m) (scores tsr entity types x)) (r :: post) →
  find_entity tsr self entity types w = (w', Ok (resolved r m)).
Proof.
  intros Hfetch Hsc Hr Hm Hfloor Hpre Hrest.
  apply Forall_app in Hsc as [Hsc1 Hsc2]. apply Forall_cons in Hrest as [Hrm Hpost].
  rewrite (find_entity_fetched _ _ _ _ _ _ _ Hfetch).
  unfold scan_states. rewrite run_bind.
  assert (truthy (VList (pre ++ r :: post)) = true) as -> by by destruct pre.
  rewrite run_lift. simpl iterate. cbv beta iota. rewrite for_each_app.
  destruct (scan_prefix_below tsr entity types pre (50, VNone) m Hsc1 Hpre Hfloor)
    as (b1 & -> & Hb1).
  simpl for_each. rewrite run_bind, try_match_entity_state by done.
  unfold scan_step. rewrite (offers_reach r _ b1 m Hrm) by (right; done).
  by rewrite scan_suffix_idle.
Qed.

(** Two lamps named alike both score 100; the first one is returned. *)
Lemma find_entity_first_maximum_witness :
  ∃ w',
    find_entity Demo.tsr Demo.ha "kitchen lamp" ["light"]
      (Demo.serving [Demo.hall_lamp; Demo.kitchen_lamp; Demo.kitchen_lamp_2])
    = (w', Ok (resolved Demo.kitchen_lamp 100)).
Proof.
  eexists.
  apply (find_entity_first_maximum Demo.tsr Demo.ha "kitchen lamp" ["light"]
           (Demo.serving [Demo.hall_lamp; Demo.kitchen_lamp; Demo.kitchen_lamp_2])
           _ [Demo.hall_lamp] Demo.kitchen_lamp [Demo.kitchen_lamp_2] 100).
  - vm_compute; reflexivity.
  - compute_done.
  - compute_done.
  - compute_done.
  - lia.
  - compute_done.
  - compute_done.
Defined.

(** The record that wins has to be an entity state: an entry without
    [state] raises the running best score and is not recorded (the
    dictionary of line 109 fails after the assignment of line 108), so
    that a later entry with the same score is turned down. *)
Remark entry_without_state :
  scan_states Demo.tsr "kitchen lamp" ["light"]
    (VList [Demo.stateless_lamp; Demo.kitchen_lamp_2]) = Ok VNone ∧
  scan_states Demo.tsr "kitchen lamp" ["light"] (VList [Demo.kitchen_lamp_2])
  = Ok (resolved Demo.kitchen_lamp_2 100).
Proof. split; vm_compute; reflexivity. Qed.

(** C8. When no record of the catalog has an allowed domain (the text of
    its id before the first dot), [find_entity] returns [None], whatever
    the names and ids look like. *)
Theorem find_entity_no_allowed_domain tsr self entity types w w' catalog :
  _get_state self w = (w', Ok (VList catalog)) →
  Forall (λ r, excluded types r = true) catalog →
  find_entity tsr self entity types w = (w', Ok VNone).
Proof.
  intros Hfetch Hex. rewrite (find_entity_fetched _ _ _ _ _ _ _ Hfetch).
  unfold scan_states. rewrite run_bind.
  destruct catalog as [|r l]; [done|].
  change (truthy (VList (r :: l))) with true. cbv iota.
  rewrite run_lift. simpl iterate. cbv beta iota.
  rewrite for_each_idle; [done|].
  eapply Forall_impl; [exact Hex|]. intros x Hx b. by apply try_match_excluded.
Qed.

(** The utterance is the exact name of a light, but only sensors are
    allowed; and no domain is allowed at all. *)
Lemma find_entity_no_allowed_domain_witness :
  ∃ w',
    find_entity Demo.tsr Demo.ha "kitchen lamp" ["sensor"]
      (Demo.serving [Demo.hall_lamp; Demo.kitchen_lamp]) = (w', Ok VNone) ∧
    find_entity Demo.tsr Demo.ha "kitchen lamp" []
      (Demo.serving [Demo.hall_lamp; Demo.kitchen_lamp]) = (w', Ok VNone).
Proof.
  eexists. split.
  - apply (find_entity_no_allowed_domain Demo.tsr Demo.ha "kitchen lamp" ["sensor"]
             (Demo.serving [Demo.hall_lamp; Demo.kitchen_lamp]) _
             [Demo.hall_lamp; Demo.kitchen_lamp]);
      [vm_compute; reflexivity | compute_done].
  - apply (find_entity_no_allowed_domain Demo.tsr Demo.ha "kitchen lamp" []
             (Demo.serving [Demo.hall_lamp; Demo.kitchen_lamp]) _
             [Demo.hall_lamp; Demo.kitchen_lamp]);
      [vm_compute; reflexivity | compute_done].
Defined.

(** With no allowed domain at all, every record is passed over. *)
Remark excluded_nil r :
  excluded [] r = true ↔
  ∃ d, r = VDict d ∧ (d !! "entity_id" = None ∨ ∃ eid, d !! "entity_id" = Some (VStr eid)).
Proof.
  unfold excluded. split.
  - destruct r as [| | | | | |d]; try discriminate.
    destruct (d !! "entity_id") as [[| | | |eid| |]|] eqn:Hid; try discriminate;
      intros _; exists d; split; eauto.
  - intros (d & -> & [-> | [eid ->]]); [done|].
    rewrite bool_decide_eq_false_2; [done | apply not_elem_of_nil].
Qed.

(** ** Token order *)

Lemma ascii_compare_refl a : Ascii.compare a a = Eq.
Proof. unfold Ascii.compare. apply N.compare_refl. Qed.

Lemma ascii_compare_lt_trans a b c :
  Ascii.compare a b = Lt → Ascii.compare b c = Lt → Ascii.compare a c = Lt.
Proof. unfold Ascii.compare. rewrite !N.compare_lt_iff. lia. Qed.

Lemma string_leb_trans a b c :
  String.leb a b = true → String.leb b c = true → String.leb a c = true.
Proof.
  unfold String.leb. revert b c.
  induction a as [|x a IH]; intros [|y b] [|z c]; simpl; try done.
  destruct (Ascii.compare x y) eqn:Hxy, (Ascii.compare y z) eqn:Hyz; try done.
  - apply Ascii.compare_eq_iff in Hxy as ->. apply Ascii.compare_eq_iff in Hyz as ->.
    rewrite ascii_compare_refl. apply IH.
  - apply Ascii.compare_eq_iff in Hxy as ->. by rewrite Hyz.
  - apply Ascii.compare_eq_iff in Hyz as <-. by rewrite Hxy.
  - by rewrite (ascii_compare_lt_trans _ _ _ Hxy Hyz).
Qed.

#[local] Instance str_le_trans : Transitive Fuzz.str_le.
Proof. intros a b c. apply string_leb_trans. Qed.

#[local] Instance str_le_total : Total Fuzz.str_le.
Proof. intros a b. apply String.leb_total. Qed.

#[local] Instance str_le_antisym : AntiSymm (=) Fuzz.str_le.
Proof. intros a b. apply String.leb_antisym. Qed.

(** Sorting forgets the order of the tokens. *)
Lemma sorted_permutation l1 l2 : l1 ≡ₚ l2 → Fuzz.sorted l1 = Fuzz.sorted l2.
Proof.
  intros Hp. unfold Fuzz.sorted.
  apply (Sorted_unique Fuzz.str_le); try apply Sorted_merge_sort; try apply _.
  by rewrite !merge_sort_Permutation.
Qed.

Lemma token_sort_ratio_permutation ratio u1 u2 x :
  Fuzz.words u1 ≡ₚ Fuzz.words u2 →
  Fuzz.token_sort_ratio ratio u1 x = Fuzz.token_sort_ratio ratio u2 x.
Proof.
  intros Hp. unfold Fuzz.token_sort_ratio, Fuzz.process_and_sort.
  by rewrite (sorted_permutation _ _ Hp).
Qed.

Lemma for_each_ext {S A} (l : list A) (f g : A → M S unit) :
  (∀ x s, f x s = g x s) → ∀ s, for_each l f s = for_each l g s.
Proof.
  intros Hfg. induction l as [|x l IH]; intros s; simpl; [done|].
  rewrite !run_bind, Hfg. destruct (g x s) as [s1 [[]|e]]; [apply IH | done].
Qed.

(** The scan depends on the utterance through its scores only. *)
Lemma match_state_ext tsr1 tsr2 u1 u2 types r b :
  (∀ x, tsr1 u1 x = tsr2 u2 x) →
  match_state tsr1 u1 types r b = match_state tsr2 u2 types r b.
Proof.
  intros Hs. unfold match_state.
  rewrite !run_lift. destruct (getitem r "entity_id") as [eid|]; [|done].
  rewrite !run_lift. destruct (str_split eid ".") as [parts|]; [|done].
  rewrite !run_lift. destruct (getindex parts 0) as [dom|]; [|done].
  case_bool_decide; [|done].
  rewrite !run_lift. destruct (getitem r "attributes") as [attrs|]; [|done].
  rewrite !run_lift. destruct (getitem attrs "friendly_name") as [name|]; [|done].
  rewrite !run_lift. destruct (str_lower name) as [lname|]; [|done].
  rewrite !run_bind, Hs.
  destruct (record_best (tsr2 u2 lname) r b) as [b1 [[]|e]]; [|done].
  rewrite !run_lift. cbv beta iota.
  destruct (str_lower eid) as [leid|]; [|done].
  by rewrite Hs.
Qed.

Lemma scan_states_ext tsr1 tsr2 u1 u2 types json_data :
  (∀ x, tsr1 u1 x = tsr2 u2 x) →
  scan_states tsr1 u1 types json_data = scan_states tsr2 u2 types json_data.
Proof.
  intros Hs. unfold scan_states. rewrite !run_bind.
  destruct (truthy json_data); [|done].
  rewrite !run_lift. destruct (iterate json_data) as [states|]; [|done].
  rewrite (for_each_ext states _
    (λ state, try_catch (match_state tsr2 u2 types state) [KeyError] (mret tt))); [done|].
  intros r b. unfold try_catch. by rewrite (match_state_ext tsr1 tsr2 u1 u2).
Qed.

(** C2. Reordering the word tokens of the utterance does not change what
    [find_entity] selects: two utterances with the same tokens in another
    order resolve alike on every catalog and domain set, for the score
    sorts the tokens of both strings before it applies the ratio. *)
Theorem find_entity_token_order ratio self u1 u2 types w :
  Fuzz.words u1 ≡ₚ Fuzz.words u2 →
  find_entity (Fuzz.token_sort_ratio ratio) self u1 types w
  = find_entity (Fuzz.token_sort_ratio ratio) self u2 types w.
Proof.
  intros Hp. unfold find_entity. rewrite !run_bind.
  destruct (_get_state self w) as [w1 [j|e]]; [|done].
  unfold lift. f_equal. apply scan_states_ext. intros x.
  by apply token_sort_ratio_permutation.
Qed.

Lemma find_entity_token_order_witness :
  find_entity (Fuzz.token_sort_ratio Fuzz.indel_ratio) Demo.ha
              "temperature outside" ["sensor"] (Demo.serving [Demo.outside_temp])
  = find_entity (Fuzz.token_sort_ratio Fuzz.indel_ratio) Demo.ha
                "outside temperature" ["sensor"] (Demo.serving [Demo.outside_temp]).
Proof.
  apply (find_entity_token_order Fuzz.indel_ratio Demo.ha
           "temperature outside" "outside temperature").
  change (Fuzz.words "temperature outside") with ["temperature"; "outside"].
  change (Fuzz.words "outside temperature") with ["outside"; "temperature"].
  apply perm_swap.
Defined.

(** ** Attribute reader *)

Lemma scan_attrs_other eid pre rest :
  Forall (λ x, other_id eid x = true) pre →
  scan_attrs eid (pre ++ rest) = scan_attrs eid rest.
Proof.
  induction 1 as [|x pre Hx _ IH]; simpl; [done|].
  unfold other_id in Hx. destruct x as [| | | | | |d]; try discriminate. simpl.
  destruct (d !! "entity_id") as [v|]; [|discriminate]. simpl.
  apply negb_true_iff in Hx. by rewrite Hx.
Qed.

Lemma domain_cons_inv c s x t :
  domain (String c s) = String x t → c = x ∧ domain s = t.
Proof. simpl. destruct (Ascii.eqb c "."); [done|]. by intros [= -> ->]. Qed.

Lemma domain_empty_inv s : domain s = "" → s = "" ∨ ∃ r, s = String "." r.
Proof.
  destruct s as [|c r]; simpl; [by left|].
  destruct (Ascii.eqb_spec c ".") as [-> | _]; [|done]. right. by exists r.
Qed.

Lemma prefix_cons_inv x p s :
  String.prefix (String x p) s = true → ∃ r, s = String x r ∧ String.prefix p r = true.
Proof.
  destruct s as [|c r]; simpl; [done|].
  destruct (ascii_dec x c) as [<- | _]; [|done]. intros H. by exists r.
Qed.

(** For an id of the form domain.object, [startswith('light.')] tests
    that the domain is light. *)
Lemma startswith_light eid :
  domain eid ≠ eid → startswith "light." eid = bool_decide (domain eid = "light").
Proof.
  intros Hdot. case_bool_decide as Hd.
  - destruct eid as [|c1 r]; [done|]. apply domain_cons_inv in Hd as [-> Hd].
    destruct r as [|c2 r]; [done|]. apply domain_cons_inv in Hd as [-> Hd].
    destruct r as [|c3 r]; [done|]. apply domain_cons_inv in Hd as [-> Hd].
    destruct r as [|c4 r]; [done|]. apply domain_cons_inv in Hd as [-> Hd].
    destruct r as [|c5 r]; [done|]. apply domain_cons_inv in Hd as [-> Hd].
    apply domain_empty_inv in Hd as [-> | [r' ->]]; [|by destruct r'].
    exfalso. by apply Hdot.
  - destruct (startswith "light." eid) eqn:Hp; [|done]. exfalso. apply Hd.
    unfold startswith in Hp.
    apply prefix_cons_inv in Hp as (r1 & -> & Hp). apply prefix_cons_inv in Hp as (r2 & -> & Hp).
    apply prefix_cons_inv in Hp as (r3 & -> & Hp). apply prefix_cons_inv in Hp as (r4 & -> & Hp).
    apply prefix_cons_inv in Hp as (r5 & -> & Hp). apply prefix_cons_inv in Hp as (r6 & -> & Hp).
    done.
Qed.

Lemma scan_attrs_found eid d a name st post :
  d !! "entity_id" = Some (VStr eid) →
  d !! "attributes" = Some (VDict a) →
  a !! "friendly_name" = Some name →
  d !! "state" = Some st →
  domain eid ≠ eid →
  scan_attrs eid (VDict d :: post)
  = Ok (VDict {[ "unit_measure" := default (VStr "") (a !! unit_attribute eid);
                 "name" := name; "state" := st ]}).
Proof.
  intros Hid Ha Hname Hst Hdot. simpl. rewrite Hid. simpl.
  rewrite String.eqb_refl, Ha. simpl.
  rewrite (startswith_light _ Hdot). unfold unit_attribute.
  case_bool_decide; simpl.
  - destruct (a !! "brightness"); simpl; by rewrite Hname, Hst.
  - destruct (a !! "unit_of_measurement"); simpl; by rewrite Hname, Hst.
Qed.

Lemma scan_attrs_nameless eid d a post :
  d !! "entity_id" = Some (VStr eid) →
  d !! "attributes" = Some (VDict a) →
  a !! "friendly_name" = None →
  scan_attrs eid (VDict d :: post) = Raise KeyError.
Proof.
  intros Hid Ha Hname. simpl. rewrite Hid. simpl. rewrite String.eqb_refl, Ha. simpl.
  destruct (startswith "light." eid); simpl.
  - destruct (a !! "brightness"); simpl; by rewrite Hname.
  - destruct (a !! "unit_of_measurement"); simpl; by rewrite Hname.
Qed.

(** C7. When the scan of [find_entity_attr] reaches a record whose id is
    exactly the one asked for, the summary it returns has as
    [unit_measure] the [brightness] attribute if the id's domain is light
    and the [unit_of_measurement] attribute otherwise, and the empty string
    when that attribute is absent. *)
Theorem find_entity_attr_unit self w w' pre d post eid a name st :
  _get_state self w = (w', Ok (VList (pre ++ VDict d :: post))) →
  Forall (λ x, other_id eid x = true) pre →
  d !! "entity_id" = Some (VStr eid) →
  d !! "attributes" = Some (VDict a) →
  a !! "friendly_name" = Some name →
  d !! "state" = Some st →
  domain eid ≠ eid →
  find_entity_attr self eid w
  = (w', Ok (VDict {[ "unit_measure" := default (VStr "") (a !! unit_attribute eid);
                      "name" := name; "state" := st ]})).
Proof.
  intros Hfetch Hpre Hid Ha Hname Hst Hdot.
  rewrite (find_entity_attr_fetched _ _ _ _ _ Hfetch).
  rewrite (scan_attrs_other _ _ _ Hpre).
  by rewrite (scan_attrs_found eid d a name st).
Qed.

(** A light with brightness 80 and no unit of measurement reports 80. *)
Lemma find_entity_attr_unit_witness :
  ∃ w',
    find_entity_attr Demo.ha "light.lamp" (Demo.serving [Demo.hall_lamp; Demo.lamp])
    = (w', Ok (VDict {[ "unit_measure" := VInt 80; "name" := VStr "Lamp";
                        "state" := VStr "on" ]})).
Proof.
  eexists.
  apply (find_entity_attr_unit Demo.ha (Demo.serving [Demo.hall_lamp; Demo.lamp]) _
           [Demo.hall_lamp] Demo.lamp_record [] "light.lamp" Demo.lamp_attributes
           (VStr "Lamp") (VStr "on")).
  - vm_compute; reflexivity.
  - compute_done.
  - compute_done.
  - compute_done.
  - compute_done.
  - compute_done.
  - compute_done.
Defined.

(** ** Lookup failures *)

(** C4 (as amended). A record whose attributes hold no [friendly_name] is
    passed over by [find_entity]: the scan goes on as if the record were
    not in the catalog, and no [KeyError] reaches the caller.  The
    attribute reader does not pass it over: asked for that record's id,
    [find_entity_attr] raises [KeyError]. *)
Theorem missing_friendly_name tsr self entity types w w' pre d post eid a :
  _get_state self w = (w', Ok (VList (pre ++ VDict d :: post))) →
  d !! "entity_id" = Some (VStr eid) →
  d !! "attributes" = Some (VDict a) →
  a !! "friendly_name" = None →
  Forall (λ x, other_id eid x = true) pre →
  find_entity tsr self entity types w
    = (w', scan_states tsr entity types (VList (pre ++ post))) ∧
  (find_entity tsr self entity types w).2 ≠ Raise KeyError ∧
  find_entity_attr self eid w = (w', Raise KeyError).
Proof.
  intros Hfetch Hid Ha Hname Hpre.
  rewrite (find_entity_fetched _ _ _ _ _ _ _ Hfetch).
  rewrite (find_entity_attr_fetched _ _ _ _ _ Hfetch).
  split; [|split].
  - f_equal. apply scan_states_skip. intros b. apply try_match_nameless.
    unfold nameless. rewrite Hid, Ha. by apply bool_decide_eq_true_2.
  - apply scan_states_no_KeyError.
  - rewrite (scan_attrs_other _ _ _ Hpre). by rewrite (scan_attrs_nameless eid d a).
Qed.

Lemma missing_friendly_name_witness :
  ∃ w',
    find_entity Demo.tsr Demo.ha "kitchen lamp" ["light"]
      (Demo.serving [Demo.hall_lamp; Demo.porch; Demo.kitchen_lamp])
    = (w', scan_states Demo.tsr "kitchen lamp" ["light"]
             (VList [Demo.hall_lamp; Demo.kitchen_lamp])) ∧
    (find_entity Demo.tsr Demo.ha "kitchen lamp" ["light"]
       (Demo.serving [Demo.hall_lamp; Demo.porch; Demo.kitchen_lamp])).2
    ≠ Raise KeyError ∧
    find_entity_attr Demo.ha "light.porch"
      (Demo.serving [Demo.hall_lamp; Demo.porch; Demo.kitchen_lamp])
    = (w', Raise KeyError).
Proof.
  eexists.
  apply (missing_friendly_name Demo.tsr Demo.ha "kitchen lamp" ["light"]
           (Demo.serving [Demo.hall_lamp; Demo.porch; Demo.kitchen_lamp]) _
           [Demo.hall_lamp] Demo.porch_record [Demo.kitchen_lamp] "light.porch" ∅).
  - vm_compute; reflexivity.
  - compute_done.
  - compute_done.
  - compute_done.
  - compute_done.
Defined.

(** C4 fails as stated: asked for a record that has no [friendly_name],
    the attribute reader returns neither a summary nor [None]. *)
Lemma find_entity_attr_lookup_failure :
  ¬ ∃ v, (find_entity_attr Demo.ha "light.porch"
            (Demo.serving [Demo.hall_lamp; Demo.porch])).2 = Ok v.
Proof. intros [v Hv]. vm_compute in Hv. discriminate. Qed.

(** ** Constructor *)

(** C5 (as amended). For a configuration mapping that holds the five keys
    the constructor reads, the client is built; its [ssl] field is [False]
    when the supplied value is falsy and its [verify] field is [True] when
    the supplied value is falsy, an explicit [False] included; a truthy
    value is kept as supplied, so a boolean input always gives boolean
    fields.  A mapping without the [ssl] or the [verify] key builds no
    client: the lookup raises [KeyError]. *)
Theorem init_flags fmt d :
  (d !! "ssl" = None ∨ d !! "verify" = None → __init__ fmt (VDict d) = Raise KeyError) ∧
  (∀ s v,
     d !! "ssl" = Some s →
     d !! "verify" = Some v →
     is_Some (d !! "ip_address") →
     is_Some (d !! "token") →
     is_Some (d !! "port_number") →
     ∃ c, __init__ fmt (VDict d) = Ok c ∧
          (truthy s = false → ssl c = VBool false) ∧
          (truthy s = true → ssl c = s) ∧
          (truthy v = false → verify c = VBool true) ∧
          (truthy v = true → verify c = v) ∧
          (is_bool s = true → is_bool (ssl c) = true) ∧
          (is_bool v = true → verify c = VBool true)).
Proof.
  split.
  - unfold __init__. simpl. intros [Hs | Hv].
    + by rewrite Hs.
    + destruct (d !! "ssl"); simpl; by rewrite ?Hv.
  - intros s v Hs Hv [ip Hip] [token Htoken] [port Hport].
    unfold __init__. simpl. rewrite Hs. simpl. rewrite Hv. simpl.
    rewrite Hip. simpl. rewrite Htoken. simpl. rewrite Hport. simpl.
    eexists. split; [reflexivity|]. simpl. unfold py_or.
    repeat split.
    + by intros ->.
    + by intros ->.
    + by intros ->.
    + by intros ->.
    + by destruct s as [|[]| | | | |].
    + by destruct v as [|[]| | | | |].
Qed.

(** An explicit [verify = False] is overridden. *)
Lemma init_flags_witness :
  ∃ c, __init__ Demo.show (Demo.config VNone (VBool false)) = Ok c ∧
       ssl c = VBool false ∧ verify c = VBool true.
Proof.
  destruct (proj2 (init_flags Demo.show
              {[ "ssl" := VNone; "verify" := VBool false; "ip_address" := VStr "10.0.0.2";
                 "token" := VStr "abc"; "port_number" := VInt 8123 ]})
              VNone (VBool false))
    as (c & Hc & Hssl & _ & Hverify & _); [compute_done .. | ].
  exists c. split; [exact Hc|]. split; [by apply Hssl | by apply Hverify].
Defined.

(** C5 fails as stated: a mapping without the [ssl] key builds no client
    at all, the lookup raises [KeyError]. *)
Lemma init_absent_flag :
  ¬ ∃ c, __init__ Demo.show
           (VDict {[ "verify" := VBool true; "ip_address" := VStr "10.0.0.2";
                     "token" := VStr "abc"; "port_number" := VInt 8123 ]}) = Ok c ∧
         is_bool (ssl c) = true ∧ is_bool (verify c) = true.
Proof. intros (c & Hc & _). vm_compute in Hc. discriminate. Qed.

(** ** Liveness check *)

(** C6 (as amended). [connected] returns [False] exactly when the state
    fetch raises [Timeout], the built-in [ConnectionError] or a
    [RequestException], the [HTTPError] of a non-Ok status and the
    connection error of the requests library being such; it returns [True]
    whenever the fetch succeeds, whatever the payload; any other exception
    leaves it as raised.  The resolver and the attribute reader pass every
    exception of the fetch on. *)
Theorem connected_outcome tsr self entity types eid w :
  (connected self w).1 = (_get_state self w).1 ∧
  (connected self w).2 =
    match (_get_state self w).2 with
    | Ok _ => Ok true
    | Raise e =>
        if bool_decide (e ∈ [Timeout; ConnectionError; RequestException; HTTPError;
                             RequestsConnectionError])
        then Ok false else Raise e
    end ∧
  (∀ e, (_get_state self w).2 = Raise e →
        (find_entity tsr self entity types w).2 = Raise e ∧
        (find_entity_attr self eid w).2 = Raise e).
Proof.
  unfold connected, try_catch, find_entity, find_entity_attr. rewrite !run_bind.
  destruct (_get_state self w) as [w1 [j|e]]; simpl.
  - by repeat split.
  - split; [by destruct e|]. split; [by destruct e|]. by intros e' [= <-].
Qed.

(** C6 fails as stated: a server that answers 404 is reached, no
    connection failure or timeout occurs, and [connected] is [False]. *)
Lemma connected_false_on_status_error :
  ¬ ((connected Demo.ha (Demo.answering 404 VNone)).2 = Ok false ↔
     ∃ e, (_get_state Demo.ha (Demo.answering 404 VNone)).2 = Raise e ∧
          transport_failure e = true).
Proof.
  intros [Hfalse _]. destruct (Hfalse eq_refl) as (e & He & Ht).
  vm_compute in He. injection He as <-. discriminate.
Qed.

(** ** Service invoker *)

(** C9. [execute_service] sends one POST request and takes one reply: on
    a response with a 2xx status it returns that response object as it
    is, on any other status it raises [HTTPError], and an exception of the
    transport is passed on; in no case is a second request sent. *)
Theorem execute_service_contract dumps self domain service payload w :
  let out := execute_service dumps self domain service payload w in
  (∃ rq, sent out.1 = sent w ++ [rq] ∧ meth rq = POST ∧
         target rq = url self +:+ "/api/services/" +:+ domain +:+ "/" +:+ service ∧
         data rq = Some (dumps payload)) ∧
  replies out.1 = tail (replies w) ∧
  match head (replies w) with
  | Some (Ok resp) =>
      out.2 = if bool_decide (200 ≤ status_code resp < 300) then Ok resp
              else Raise HTTPError
  | Some (Raise e) => out.2 = Raise e
  | None => out.2 = Raise RequestsConnectionError
  end.
Proof.
  unfold execute_service, post, send. rewrite run_bind.
  destruct (truthy (ssl self)), (replies w) as [|[resp|e] rest]; simpl;
    rewrite ?run_lift; unfold raise_for_status;
    try destruct (Z.leb_spec 200 (status_code resp)),
                 (Z.ltb_spec (status_code resp) 300);
    simpl; (split; [eexists; repeat split; reflexivity|]); split; try done;
    case_bool_decide; try done; lia.
Qed.

Example execute_service_200 :
  (execute_service Demo.show Demo.ha "light" "turn_on"
     (VDict {[ "entity_id" := VStr "light.lamp" ]}) (Demo.answering 200 (VList []))).2
  = Ok {| status_code := 200; json := Ok (VList []) |}.
Proof. reflexivity. Qed.

Example execute_service_404 :
  (execute_service Demo.show Demo.ha "light" "turn_on"
     (VDict {[ "entity_id" := VStr "light.lamp" ]}) (Demo.answering 404 VNone)).2
  = Raise HTTPError.
Proof. reflexivity. Qed.

(** * Further properties of the client *)

(** ** The attribute reader on other catalogs *)

(** X1. Asked for an id that no record of the catalog carries,
    [find_entity_attr] returns [None]. *)
Theorem find_entity_attr_unknown_id self w w' catalog eid :
  _get_state self w = (w', Ok (VList catalog)) →
  Forall (λ x, other_id eid x = true) catalog →
  find_entity_attr self eid w = (w', Ok VNone).
Proof.
  intros Hfetch Hother. rewrite (find_entity_attr_fetched _ _ _ _ _ Hfetch).
  rewrite <- (app_nil_r catalog). by rewrite (scan_attrs_other _ _ _ Hother).
Qed.

Lemma find_entity_attr_unknown_id_witness :
  ∃ w',
    find_entity_attr Demo.ha "light.cellar" (Demo.serving [Demo.hall_lamp; Demo.lamp])
    = (w', Ok VNone).
Proof.
  eexists.
  apply (find_entity_attr_unknown_id Demo.ha (Demo.serving [Demo.hall_lamp; Demo.lamp]) _
           [Demo.hall_lamp; Demo.lamp] "light.cellar");
    [vm_compute; reflexivity | compute_done].
Defined.

Lemma scan_attrs_match eid d post :
  d !! "entity_id" = Some (VStr eid) →
  scan_attrs eid (VDict d :: post) = scan_attrs eid [VDict d].
Proof. intros Hid. simpl. rewrite Hid. simpl. by rewrite String.eqb_refl. Qed.

(** X2. The scan of [find_entity_attr] stops at the first record with the
    id asked for: what comes after it in the catalog is not looked at, so
    that neither a second record with that id nor a broken record there
    changes the outcome. *)
Theorem find_entity_attr_first_match self w1 w1' w2 w2' pre d post1 post2 eid :
  _get_state self w1 = (w1', Ok (VList (pre ++ VDict d :: post1))) →
  _get_state self w2 = (w2', Ok (VList (pre ++ VDict d :: post2))) →
  Forall (λ x, other_id eid x = true) pre →
  d !! "entity_id" = Some (VStr eid) →
  (find_entity_attr self eid w1).2 = (find_entity_attr self eid w2).2.
Proof.
  intros H1 H2 Hpre Hid.
  rewrite (find_entity_attr_fetched _ _ _ _ _ H1), (find_entity_attr_fetched _ _ _ _ _ H2).
  simpl. rewrite !(scan_attrs_other _ _ _ Hpre).
  by rewrite (scan_attrs_match eid d post1), (scan_attrs_match eid d post2).
Qed.

(** After the lamp the first catalog holds a number, the second a second
    lamp with other attributes. *)
Lemma find_entity_attr_first_match_witness :
  (find_entity_attr Demo.ha "light.lamp"
     (Demo.serving [Demo.hall_lamp; Demo.lamp; VInt 7])).2
  = (find_entity_attr Demo.ha "light.lamp"
       (Demo.serving [Demo.hall_lamp; Demo.lamp;
                      Demo.entry "light.lamp" "Other" "off" ∅])).2.
Proof.
  eapply (find_entity_attr_first_match Demo.ha
            (Demo.serving [Demo.hall_lamp; Demo.lamp; VInt 7]) _
            (Demo.serving [Demo.hall_lamp; Demo.lamp;
                           Demo.entry "light.lamp" "Other" "off" ∅]) _
            [Demo.hall_lamp] Demo.lamp_record [VInt 7]
            [Demo.entry "light.lamp" "Other" "off" ∅] "light.lamp").
  - vm_compute; reflexivity.
  - vm_compute; reflexivity.
  - compute_done.
  - compute_done.
Defined.

(** X3. A record without [entity_id] that the scan of [find_entity_attr]
    meets before the id asked for makes it raise [KeyError], even when a
    record with that id follows: the comparison of line 143 is not inside
    a [try]. *)
Theorem find_entity_attr_missing_id self w w' pre d post eid :
  _get_state self w = (w', Ok (VList (pre ++ VDict d :: post))) →
  Forall (λ x, other_id eid x = true) pre →
  d !! "entity_id" = None →
  find_entity_attr self eid w = (w', Raise KeyError).
Proof.
  intros Hfetch Hpre Hid. rewrite (find_entity_attr_fetched _ _ _ _ _ Hfetch).
  rewrite (scan_attrs_other _ _ _ Hpre). simpl. by rewrite Hid.
Qed.

Lemma find_entity_attr_missing_id_witness :
  ∃ w',
    find_entity_attr Demo.ha "light.lamp"
      (Demo.serving [Demo.hall_lamp; Demo.anonymous; Demo.lamp])
    = (w', Raise KeyError).
Proof.
  eexists.
  apply (find_entity_attr_missing_id Demo.ha
           (Demo.serving [Demo.hall_lamp; Demo.anonymous; Demo.lamp]) _
           [Demo.hall_lamp] {[ "state" := VStr "on"; "attributes" := VDict ∅ ]}
           [Demo.lamp] "light.lamp").
  - vm_compute; reflexivity.
  - compute_done.
  - compute_done.
Defined.

(** ** Payloads that are no catalog *)

Lemma find_entity_attr_payload self eid w w' json_data :
  _get_state self w = (w', Ok json_data) →
  find_entity_attr self eid w
  = (w', if truthy json_data then iterate json_data ≫= scan_attrs eid else Ok VNone).
Proof. intros H. unfold find_entity_attr. by rewrite run_bind, H. Qed.

(** X4. On an empty payload (an empty list or object, [null], an empty
    string, zero, [false]) both scans return [None] without looking any
    further. *)
Theorem empty_payload tsr self entity types eid w w' json_data :
  _get_state self w = (w', Ok json_data) →
  truthy json_data = false →
  find_entity tsr self entity types w = (w', Ok VNone) ∧
  find_entity_attr self eid w = (w', Ok VNone).
Proof.
  intros Hfetch Hfalsy. split.
  - rewrite (find_entity_fetched _ _ _ _ _ _ _ Hfetch).
    unfold scan_states. rewrite run_bind. by rewrite Hfalsy.
  - rewrite (find_entity_attr_payload _ _ _ _ _ Hfetch). by rewrite Hfalsy.
Qed.

Lemma empty_payload_witness :
  ∃ w',
    find_entity Demo.tsr Demo.ha "kitchen lamp" ["light"] (Demo.answering 200 VNone)
    = (w', Ok VNone) ∧
    find_entity_attr Demo.ha "light.lamp" (Demo.answering 200 VNone) = (w', Ok VNone).
Proof.
  eexists.
  apply (empty_payload Demo.tsr Demo.ha "kitchen lamp" ["light"] "light.lamp"
           (Demo.answering 200 VNone) _ VNone);
    [vm_compute; reflexivity | reflexivity].
Defined.

(** What a loop over a payload that is no list meets first is a string. *)
Lemma iterate_not_list json_data :
  truthy json_data = true → is_list json_data = false →
  iterate json_data = Raise TypeError ∨
  ∃ s rest, iterate json_data = Ok (VStr s :: rest).
Proof.
  destruct json_data as [|b|n|f|s|l|d]; simpl; try discriminate; eauto.
  - destruct s as [|c s]; [discriminate|]. simpl. eauto.
  - intros Hd _. right.
    destruct (map_to_list d) as [|[k v] rest] eqn:Hl.
    + apply map_to_list_empty_iff in Hl as ->. by rewrite bool_decide_eq_true_2 in Hd.
    + simpl. eauto.
Qed.

(** X5. On a payload that is not empty and is no list (an object, a
    string, a number, [true]) both scans raise [TypeError]: the loop
    cannot draw from it, or draws a string that has no field. *)
Theorem payload_not_a_list tsr self entity types eid w w' json_data :
  _get_state self w = (w', Ok json_data) →
  truthy json_data = true →
  is_list json_data = false →
  find_entity tsr self entity types w = (w', Raise TypeError) ∧
  find_entity_attr self eid w = (w', Raise TypeError).
Proof.
  intros Hfetch Htruthy Hlist.
  rewrite (find_entity_fetched _ _ _ _ _ _ _ Hfetch).
  rewrite (find_entity_attr_payload _ _ _ _ _ Hfetch).
  unfold scan_states. rewrite run_bind, Htruthy, run_lift.
  destruct (iterate_not_list _ Htruthy Hlist) as [-> | (s & rest & ->)]; [done|].
  split; [|done]. simpl for_each. rewrite run_bind. unfold try_catch, match_state.
  by rewrite run_lift.
Qed.

Lemma payload_not_a_list_witness :
  ∃ w',
    find_entity Demo.tsr Demo.ha "kitchen lamp" ["light"]
      (Demo.answering 200 (VDict {[ "message" := VStr "API running." ]}))
    = (w', Raise TypeError) ∧
    find_entity_attr Demo.ha "light.lamp"
      (Demo.answering 200 (VDict {[ "message" := VStr "API running." ]}))
    = (w', Raise TypeError).
Proof.
  eexists.
  apply (payload_not_a_list Demo.tsr Demo.ha "kitchen lamp" ["light"] "light.lamp"
           (Demo.answering 200 (VDict {[ "message" := VStr "API running." ]})) _
           (VDict {[ "message" := VStr "API running." ]}));
    [vm_compute; reflexivity | compute_done | reflexivity].
Defined.

(** ** The resolver on other catalogs *)

Section MoreScan.
Variable tsr : string → string → Z.
Variables (entity : string) (types : list string).

#[local] Abbreviation try_state r :=
  (try_catch (match_state tsr entity types r) [KeyError] (mret tt)).

Lemma scan_prefix_ok pre b :
  Forall (λ x, scannable x = true) pre →
  ∃ b1, for_each pre (λ r, try_state r) b = (b1, Ok tt).
Proof.
  intros Hsc. revert b. induction Hsc as [|x pre Hx _ IH]; intros b; simpl.
  { by exists b. }
  destruct (try_match_scannable tsr entity types x b Hx) as (b' & Hrun & _).
  rewrite run_bind, Hrun. apply IH.
Qed.

(** A friendly name that is no string stops the scan. *)
Lemma try_state_bad_name d eid a v b :
  d !! "entity_id" = Some (VStr eid) →
  domain eid ∈ types →
  d !! "attributes" = Some (VDict a) →
  a !! "friendly_name" = Some v →
  is_str v = false →
  try_state (VDict d) b = (b, Raise AttributeError).
Proof.
  intros Hid Hdom Ha Hname Hv.
  unfold try_catch, match_state. rewrite run_lift. simpl getitem. rewrite Hid.
  cbv beta iota. rewrite run_lift. simpl str_split. cbv beta iota.
  rewrite run_lift, getindex_split. cbv beta iota.
  rewrite bool_decide_eq_true_2 by done.
  rewrite run_lift. simpl getitem. rewrite Ha. cbv beta iota.
  rewrite run_lift. simpl getitem. rewrite Hname. cbv beta iota.
  rewrite run_lift. by destruct v.
Qed.

Lemma scan_states_bad_name pre d post eid a v :
  Forall (λ x, scannable x = true) pre →
  d !! "entity_id" = Some (VStr eid) →
  domain eid ∈ types →
  d !! "attributes" = Some (VDict a) →
  a !! "friendly_name" = Some v →
  is_str v = false →
  scan_states tsr entity types (VList (pre ++ VDict d :: post)) = Raise AttributeError.
Proof.
  intros Hpre Hid Hdom Ha Hname Hv. unfold scan_states. rewrite run_bind.
  assert (truthy (VList (pre ++ VDict d :: post)) = true) as -> by by destruct pre.
  rewrite run_lift. simpl iterate. cbv beta iota. rewrite for_each_app.
  destruct (scan_prefix_ok pre (50, VNone) Hpre) as [b1 ->].
  simpl for_each. rewrite run_bind.
  by rewrite (try_state_bad_name d eid a v).
Qed.

(** The scores of a record, read from the lookups that went through. *)
Lemma scores_lookups state eid attrs name :
  getitem state "entity_id" = Ok (VStr eid) →
  getitem state "attributes" = Ok attrs →
  getitem attrs "friendly_name" = Ok (VStr name) →
  domain eid ∈ types →
  scores tsr entity types state = [tsr entity (lower name); tsr entity (lower eid)].
Proof.
  unfold scores. destruct state as [| | | | | |d]; try discriminate. simpl.
  destruct (d !! "entity_id") as [i|]; [|discriminate]. intros [= ->].
  destruct (d !! "attributes") as [x|]; [|discriminate]. intros [= ->].
  destruct attrs as [| | | | | |a]; try discriminate. simpl.
  destruct (a !! "friendly_name") as [n|]; [|discriminate]. intros [= ->] Hdom.
  simpl. by rewrite bool_decide_eq_true_2.
Qed.

Lemma candidate_resolved state m e :
  candidate state m = Ok e → e = resolved state m.
Proof.
  unfold candidate, resolved. destruct state as [| | | | | |d]; try discriminate. simpl.
  destruct (d !! "entity_id") as [i|]; [simpl|discriminate].
  destruct (d !! "attributes") as [attrs|]; [simpl|discriminate].
  destruct attrs as [| | | | | |a]; try discriminate. simpl.
  destruct (a !! "friendly_name") as [name|]; [simpl|discriminate].
  destruct (d !! "state") as [st|]; [simpl|discriminate].
  by intros [= <-].
Qed.

Lemma record_best_keeps_in catalog m state :
  state ∈ catalog → m ∈ scores tsr entity types state →
  keeps (scan_inv_in tsr entity types catalog) (record_best m state).
Proof.
  intros Hin Hm [bs be] [Hbs Hbe]. unfold record_best. rewrite run_bind. simpl in *.
  case_bool_decide as Hgt; [|done].
  rewrite run_bind. simpl. rewrite run_bind. simpl.
  destruct (candidate state m) as [e|x] eqn:He; simpl.
  - split; simpl; [lia|]. right. exists state, m.
    repeat split; [done | done | lia | by apply candidate_resolved].
  - split; simpl; [lia | done].
Qed.

Lemma match_state_keeps_in catalog state :
  state ∈ catalog →
  keeps (scan_inv_in tsr entity types catalog) (match_state tsr entity types state).
Proof.
  intros Hin b Hb. unfold match_state.
  rewrite run_lift. destruct (getitem state "entity_id") as [eidv|] eqn:Hid; [|done].
  rewrite run_lift. destruct eidv as [| | | |eid| |]; try done. simpl str_split.
  cbv beta iota. rewrite run_lift, getindex_split. cbv beta iota.
  case_bool_decide as Hdom; [|done].
  rewrite run_lift. destruct (getitem state "attributes") as [attrs|] eqn:Ha; [|done].
  rewrite run_lift. destruct (getitem attrs "friendly_name") as [namev|] eqn:Hn; [|done].
  rewrite run_lift. destruct namev as [| | | |name| |]; try done. simpl str_lower.
  cbv beta iota.
  pose proof (scores_lookups state eid attrs name Hid Ha Hn Hdom) as Hs.
  apply (keeps_bind (scan_inv_in tsr entity types catalog)); [| |done].
  - apply record_best_keeps_in; [done|]. rewrite Hs. by left.
  - intros _ b1 Hb1. rewrite run_lift. cbv beta iota. rewrite run_lift. simpl str_lower.
    cbv beta iota. apply record_best_keeps_in; [done| |done]. rewrite Hs. right. by left.
Qed.

Lemma keeps_for_each_in {S A} (I : S → Prop) (l : list A) (body : A → M S unit) :
  (∀ x, x ∈ l → keeps I (body x)) → keeps I (for_each l body).
Proof.
  induction l as [|x l IH]; intros Hb; simpl; [apply keeps_ret|].
  apply keeps_bind; [apply Hb; by left | intros _; apply IH].
  intros y Hy. apply Hb. by right.
Qed.

Lemma scan_states_from_catalog catalog e :
  scan_states tsr entity types (VList catalog) = Ok e →
  e = VNone ∨ from_catalog tsr entity types catalog e.
Proof.
  unfold scan_states. rewrite run_bind.
  set (loop := if truthy (VList catalog) then _ else _).
  assert (keeps (scan_inv_in tsr entity types catalog) loop) as Hk.
  { unfold loop. destruct (truthy (VList catalog)); [|apply keeps_ret].
    intros s Hs. rewrite run_lift. simpl iterate. cbv beta iota. revert s Hs.
    apply keeps_for_each_in. intros state Hin.
    apply keeps_try_catch; [by apply match_state_keeps_in | apply keeps_ret]. }
  specialize (Hk (50, VNone)). destruct (loop (50, VNone)) as [b [[]|x]]; [|done].
  simpl. intros [= <-]. apply Hk. split; [done | by left].
Qed.

End MoreScan.

(** X6. Only [KeyError] is passed over: a record of an allowed domain
    whose [friendly_name] is there but is no string (a [null], a number)
    makes [find_entity] raise [AttributeError], whatever the rest of the
    catalog holds. *)
Theorem find_entity_bad_name tsr self entity types w w' pre d post eid a v :
  _get_state self w = (w', Ok (VList (pre ++ VDict d :: post))) →
  Forall (λ x, scannable x = true) pre →
  d !! "entity_id" = Some (VStr eid) →
  domain eid ∈ types →
  d !! "attributes" = Some (VDict a) →
  a !! "friendly_name" = Some v →
  is_str v = false →
  find_entity tsr self entity types w = (w', Raise AttributeError).
Proof.
  intros Hfetch Hpre Hid Hdom Ha Hname Hv.
  rewrite (find_entity_fetched _ _ _ _ _ _ _ Hfetch).
  by rewrite (scan_states_bad_name tsr entity types pre d post eid a v).
Qed.

Lemma find_entity_bad_name_witness :
  ∃ w',
    find_entity Demo.tsr Demo.ha "kitchen lamp" ["light"]
      (Demo.serving [Demo.hall_lamp; Demo.null_name; Demo.kitchen_lamp])
    = (w', Raise AttributeError).
Proof.
  eexists.
  apply (find_entity_bad_name Demo.tsr Demo.ha "kitchen lamp" ["light"]
           (Demo.serving [Demo.hall_lamp; Demo.null_name; Demo.kitchen_lamp]) _
           [Demo.hall_lamp] Demo.null_name_record [Demo.kitchen_lamp] "light.attic"
           {[ "friendly_name" := VNone ]} VNone).
  - vm_compute; reflexivity.
  - compute_done.
  - compute_done.
  - compute_done.
  - compute_done.
  - compute_done.
  - reflexivity.
Defined.

(** X7. Whatever the records of the catalog look like, an entity that
    [find_entity] returns is built from one of them: its id, name, state
    and attributes are those of one record, and its [best_score] is one of
    the two scores of that record, above 50. *)
Theorem find_entity_from_catalog tsr self entity types w w' catalog e :
  _get_state self w = (w', Ok (VList catalog)) →
  find_entity tsr self entity types w = (w', Ok e) →
  e ≠ VNone →
  ∃ r m, r ∈ catalog ∧ m ∈ scores tsr entity types r ∧ 50 < m ∧ e = resolved r m.
Proof.
  intros Hfetch Hrun Hsome.
  rewrite (find_entity_fetched _ _ _ _ _ _ _ Hfetch) in Hrun. injection Hrun as Hrun.
  by apply scan_states_from_catalog in Hrun as [-> | Hfrom].
Qed.

(** The catalog holds a number and an entry without state beside the
    sensor. *)
Lemma find_entity_from_catalog_witness :
  ∃ r m,
    r ∈ [Demo.stateless_lamp; Demo.outside_temp] ∧
    m ∈ scores Demo.tsr "outside temperature sensor" ["sensor"; "light"] r ∧
    50 < m ∧
    (find_entity Demo.tsr Demo.ha "outside temperature sensor" ["sensor"; "light"]
       (Demo.serving [Demo.stateless_lamp; Demo.outside_temp])).2
    = Ok (resolved r m).
Proof.
  destruct (find_entity_from_catalog Demo.tsr Demo.ha "outside temperature sensor"
              ["sensor"; "light"] (Demo.serving [Demo.stateless_lamp; Demo.outside_temp])
              (_get_state Demo.ha
                 (Demo.serving [Demo.stateless_lamp; Demo.outside_temp])).1
              [Demo.stateless_lamp; Demo.outside_temp]
              (resolved Demo.outside_temp 84))
    as (r & m & Hr & Hm & Hlt & He);
    [vm_compute; reflexivity | vm_compute; reflexivity | discriminate |].
  exists r, m. repeat split; try done. rewrite <- He. vm_compute; reflexivity.
Defined.

Lemma for_each_filter {S A} (P : A → Prop) `{∀ x, Decision (P x)}
    (l : list A) (body : A → M S unit) :
  (∀ x, ¬ P x → ∀ s, body x s = (s, Ok tt)) →
  ∀ s, for_each l body s = for_each (filter P l) body s.
Proof.
  intros Hskip. induction l as [|x l IH]; intros s; simpl; [done|].
  rewrite run_bind. destruct (decide (P x)) as [Hx | Hx].
  - rewrite filter_cons_True by done. simpl. rewrite run_bind.
    destruct (body x s) as [s1 [[]|e]]; [apply IH | done].
  - rewrite filter_cons_False by done. rewrite (Hskip x Hx). apply IH.
Qed.

Lemma scan_states_filter tsr entity types catalog :
  scan_states tsr entity types (VList catalog)
  = scan_states tsr entity types
      (VList (filter (λ r, excluded types r = false) catalog)).
Proof.
  unfold scan_states. rewrite !run_bind.
  set (body := λ state, try_catch (match_state tsr entity types state) [KeyError] (mret tt)).
  assert (∀ b, for_each catalog body b
             = for_each (filter (λ r, excluded types r = false) catalog) body b) as Hloop.
  { apply for_each_filter. intros x Hx b. apply try_match_excluded.
    by destruct (excluded types x). }
  destruct catalog as [|x l]; [done|].
  change (truthy (VList (x :: l))) with true. cbv iota.
  rewrite run_lift. simpl iterate. cbv beta iota. fold body. rewrite Hloop.
  destruct (filter _ (x :: l)) as [|y l'] eqn:Hf; [done|].
  change (truthy (VList (y :: l'))) with true. cbv iota.
  by rewrite run_lift.
Qed.

(** X8. Records outside the allowed domains, and records without id,
    have no part in the result: [find_entity] gives the same outcome on a
    catalog and on what is left of it when these records are taken out. *)
Theorem find_entity_allowed_only tsr self entity types w1 w1' w2 w2' catalog :
  _get_state self w1 = (w1', Ok (VList catalog)) →
  _get_state self w2
    = (w2', Ok (VList (filter (λ r, excluded types r = false) catalog))) →
  (find_entity tsr self entity types w1).2 = (find_entity tsr self entity types w2).2.
Proof.
  intros H1 H2.
  rewrite (find_entity_fetched _ _ _ _ _ _ _ H1), (find_entity_fetched _ _ _ _ _ _ _ H2).
  simpl. apply scan_states_filter.
Qed.

Lemma find_entity_allowed_only_witness :
  (find_entity Demo.tsr Demo.ha "kitchen lamp" ["light"]
     (Demo.serving [Demo.outside_temp; Demo.kitchen_lamp; Demo.anonymous])).2
  = (find_entity Demo.tsr Demo.ha "kitchen lamp" ["light"]
       (Demo.serving [Demo.kitchen_lamp])).2.
Proof.
  eapply (find_entity_allowed_only Demo.tsr Demo.ha "kitchen lamp" ["light"]
            (Demo.serving [Demo.outside_temp; Demo.kitchen_lamp; Demo.anonymous]) _
            (Demo.serving [Demo.kitchen_lamp]) _
            [Demo.outside_temp; Demo.kitchen_lamp; Demo.anonymous]);
    vm_compute; reflexivity.
Defined.

(** ** The best score on catalogs of entity states *)

Section Maximum.
Variable tsr : string → string → Z.
Variables (entity : string) (types : list string).








End Maximum.





(** ** Requests *)

Lemma get_state_request self w :
  one_request w (_get_state self w).1 (request_of self GET "/api/states" None).
Proof.
  unfold _get_state, get, send, one_request, request_of, TIMEOUT. rewrite run_bind.
  destruct (truthy (ssl self)), (replies w) as [|[resp|e] rest]; simpl; try done;
    rewrite run_lift; destruct (raise_for_status resp); simpl; try done;
    by destruct (json resp).
Qed.

Lemma find_entity_world tsr self entity types w :
  (find_entity tsr self entity types w).1 = (_get_state self w).1.
Proof.
  unfold find_entity. rewrite run_bind. by destruct (_get_state self w) as [w1 [j|e]].
Qed.

Lemma find_entity_attr_world self eid w :
  (find_entity_attr self eid w).1 = (_get_state self w).1.
Proof.
  unfold find_entity_attr. rewrite run_bind. by destruct (_get_state self w) as [w1 [j|e]].
Qed.

Lemma connected_world self w : (connected self w).1 = (_get_state self w).1.
Proof.
  unfold connected, try_catch. rewrite run_bind.
  destruct (_get_state self w) as [w1 [j|e]]; simpl; [done|].
  by destruct e.
Qed.

(** X11. Each of the seven operations sends exactly one request and takes
    exactly one reply, whether it returns or raises: a GET of
    [/api/states] for the state fetch, the resolver, the attribute reader
    and the liveness check, a GET of [/api/components], a POST of the
    encoded payload to [/api/services/<domain>/<service>], and a POST of
    the encoded [{"text": utterance}] to [/api/conversation/process].
    Every one carries the headers of the client and the timeout of 10
    seconds, and the [verify] setting only when [ssl] is on. *)
Theorem one_round_trip tsr dumps self entity types eid component domain service
    payload utterance w :
  one_request w (_get_state self w).1 (request_of self GET "/api/states" None) ∧
  one_request w (find_entity tsr self entity types w).1
              (request_of self GET "/api/states" None) ∧
  one_request w (find_entity_attr self eid w).1
              (request_of self GET "/api/states" None) ∧
  one_request w (connected self w).1 (request_of self GET "/api/states" None) ∧
  one_request w (find_component self component w).1
              (request_of self GET "/api/components" None) ∧
  one_request w (execute_service dumps self domain service payload w).1
              (request_of self POST ("/api/services/" +:+ domain +:+ "/" +:+ service)
                          (Some (dumps payload))) ∧
  one_request w (engage_conversation dumps self utterance w).1
              (request_of self POST "/api/conversation/process"
                          (Some (dumps (VDict {[ "text" := VStr utterance ]})))).
Proof.
  rewrite find_entity_world, find_entity_attr_world, connected_world.
  repeat split; try apply get_state_request.
  all: unfold find_component, execute_service, engage_conversation, get, post, send,
         request_of, TIMEOUT; rewrite run_bind.
  all: destruct (truthy (ssl self)), (replies w) as [|[resp|e] rest]; simpl; try done.
  all: rewrite run_lift; destruct (raise_for_status resp); simpl; try done.
  all: rewrite run_lift; destruct (json resp) as [j|]; simpl; try done.
  all: try (by destruct (contains j component)).
  all: rewrite run_lift; destruct (getitem j "speech") as [sp|]; simpl; try done.
  all: by destruct (getitem sp "plain").
Qed.

(** X12. A client that the constructor has built never asks to skip the
    verification of certificates: its [verify] field is truthy whatever
    the mapping held, so that a request carries no [verify] at all (plain
    http) or a truthy one. *)
Theorem verification_never_off fmt config c m path body :
  __init__ fmt config = Ok c →
  truthy (verify c) = true ∧
  (req_verify (request_of c m path body) = None ∨
   ∃ v, req_verify (request_of c m path body) = Some v ∧ truthy v = true).
Proof.
  intros Hc.
  assert (truthy (verify c) = true) as Hv.
  { unfold __init__ in Hc.
    destruct (getitem config "ssl") as [s|]; [simpl in Hc|discriminate].
    destruct (getitem config "verify") as [v|]; [simpl in Hc|discriminate].
    destruct (getitem config "ip_address") as [ip|]; [simpl in Hc|discriminate].
    destruct (getitem config "token") as [token|]; [simpl in Hc|discriminate].
    destruct (getitem config "port_number") as [port|]; [simpl in Hc|discriminate].
    injection Hc as <-. simpl. unfold py_or. by destruct (truthy v) eqn:Htv. }
  split; [done|]. unfold request_of. simpl.
  destruct (truthy (ssl c)); [right; eauto | by left].
Qed.

Lemma verification_never_off_witness :
  ∃ c, __init__ Demo.show (Demo.config (VBool true) (VBool false)) = Ok c ∧
       truthy (verify c) = true ∧
       req_verify (request_of c GET "/api/states" None) = Some (VBool true).
Proof.
  eexists. split; [vm_compute; reflexivity|].
  destruct (verification_never_off Demo.show (Demo.config (VBool true) (VBool false))
              _ GET "/api/states" None ltac:(vm_compute; reflexivity)) as [Hv _].
  split; [exact Hv | reflexivity].
Defined.

(** ** Components and conversation *)

Lemma existsb_eq_str l x : existsb (λ y, eq_str y x) l = true ↔ VStr x ∈ l.
Proof.
  induction l as [|y l IH]; simpl.
  - split; [done | by intros ?%elem_of_nil].
  - rewrite orb_true_iff, IH, elem_of_cons. split; intros [H|H]; auto.
    + left. destruct y; try discriminate. simpl in H.
      by apply String.eqb_eq in H as ->.
    + left. subst y. simpl. apply String.eqb_refl.
Qed.

(** X13. When the server answers with a status that passes and a list
    as payload, [find_component] tells whether the component is one of the
    strings of that list. *)
Theorem find_component_member self component w resp rest l :
  replies w = Ok resp :: rest →
  raise_for_status resp = Ok tt →
  json resp = Ok (VList l) →
  ∃ b, (find_component self component w).2 = Ok b ∧
       (b = true ↔ VStr component ∈ l).
Proof.
  intros Hreply Hstatus Hjson.
  exists (existsb (λ y, eq_str y component) l). split; [|apply existsb_eq_str].
  unfold find_component, get, send. rewrite run_bind.
  destruct (truthy (ssl self)); cbv beta; rewrite Hreply; simpl;
    by rewrite run_lift, Hstatus, run_lift, Hjson.
Qed.

Lemma find_component_member_witness :
  (find_component Demo.ha "conversation"
     (Demo.answering 200 (VList [VStr "light"; VStr "conversation"]))).2 = Ok true ∧
  (find_component Demo.ha "shopping_list"
     (Demo.answering 200 (VList [VStr "light"; VStr "conversation"]))).2 = Ok false.
Proof.
  split.
  - destruct (find_component_member Demo.ha "conversation"
                (Demo.answering 200 (VList [VStr "light"; VStr "conversation"]))
                {| status_code := 200; json := Ok (VList [VStr "light"; VStr "conversation"]) |}
                [] [VStr "light"; VStr "conversation"] eq_refl eq_refl eq_refl)
      as (b & -> & Hb).
    f_equal. apply Hb. apply elem_of_cons. right. apply elem_of_cons. by left.
  - destruct (find_component_member Demo.ha "shopping_list"
                (Demo.answering 200 (VList [VStr "light"; VStr "conversation"]))
                {| status_code := 200; json := Ok (VList [VStr "light"; VStr "conversation"]) |}
                [] [VStr "light"; VStr "conversation"] eq_refl eq_refl eq_refl)
      as (b & -> & Hb).
    f_equal. destruct b; [|done]. exfalso.
    assert (VStr "shopping_list" ∈ [VStr "light"; VStr "conversation"]) as Hin by by apply Hb.
    apply elem_of_cons in Hin as [Hin | Hin]; [discriminate|].
    apply elem_of_cons in Hin as [Hin | Hin]; [discriminate|].
    by apply elem_of_nil in Hin.
Defined.

(** X14. [find_component] and [engage_conversation] swallow nothing: an
    exception of the transport, of the status check or of the decoding of
    the payload leaves them as it was raised. *)
Theorem failures_pass_on dumps self component utterance w :
  (∀ e rest, replies w = Raise e :: rest →
     (find_component self component w).2 = Raise e ∧
     (engage_conversation dumps self utterance w).2 = Raise e) ∧
  (∀ resp rest e, replies w = Ok resp :: rest → raise_for_status resp = Raise e →
     (find_component self component w).2 = Raise e ∧
     (engage_conversation dumps self utterance w).2 = Raise e) ∧
  (∀ resp rest e, replies w = Ok resp :: rest → raise_for_status resp = Ok tt →
     json resp = Raise e →
     (find_component self component w).2 = Raise e ∧
     (engage_conversation dumps self utterance w).2 = Raise e).
Proof.
  unfold find_component, engage_conversation, get, post, send. rewrite !run_bind.
  repeat split; intros; destruct (truthy (ssl self)); cbv beta zeta;
    repeat match goal with H : replies w = _ |- _ => rewrite H end; simpl; try done.
  all: rewrite run_lift;
    repeat match goal with H : raise_for_status _ = _ |- _ => rewrite H end;
    simpl; try done.
  all: rewrite run_lift;
    repeat match goal with H : json _ = _ |- _ => rewrite H end; done.
Qed.

(** X15. When the server answers with a status that passes and an
    object that holds [plain] under [speech], [engage_conversation]
    returns that value. *)
Theorem engage_conversation_plain dumps self utterance w resp rest d sp text :
  replies w = Ok resp :: rest →
  raise_for_status resp = Ok tt →
  json resp = Ok (VDict d) →
  d !! "speech" = Some (VDict sp) →
  sp !! "plain" = Some text →
  (engage_conversation dumps self utterance w).2 = Ok text.
Proof.
  intros Hreply Hstatus Hjson Hspeech Hplain.
  unfold engage_conversation, post, send. rewrite run_bind.
  destruct (truthy (ssl self)); cbv beta zeta; rewrite Hreply; simpl;
    rewrite run_lift, Hstatus; cbv beta iota; rewrite run_lift, Hjson; cbv beta iota;
    rewrite run_lift; simpl; rewrite Hspeech; unfold lift; simpl; by rewrite Hplain.
Qed.

Lemma engage_conversation_plain_witness :
  (engage_conversation Demo.show Demo.ha "turn on the lamp"
     (Demo.answering 200 (Demo.speech "Turned on the lamp"))).2
  = Ok (VStr "Turned on the lamp").
Proof.
  apply (engage_conversation_plain Demo.show Demo.ha "turn on the lamp"
           (Demo.answering 200 (Demo.speech "Turned on the lamp"))
           {| status_code := 200; json := Ok (Demo.speech "Turned on the lamp") |} []
           {[ "speech" := VDict {[ "plain" := VStr "Turned on the lamp" ]} ]}
           {[ "plain" := VStr "Turned on the lamp" ]}); compute_done.
Defined.

(** X16. An answer object without [speech], or whose [speech] object
    has no [plain], makes [engage_conversation] raise [KeyError]; an answer
    that is no object makes it raise [TypeError]. *)
Theorem engage_conversation_malformed dumps self utterance w resp rest answer :
  replies w = Ok resp :: rest →
  raise_for_status resp = Ok tt →
  json resp = Ok answer →
  ((∃ d, answer = VDict d ∧
         (d !! "speech" = None ∨
          ∃ sp, d !! "speech" = Some (VDict sp) ∧ sp !! "plain" = None)) →
   (engage_conversation dumps self utterance w).2 = Raise KeyError) ∧
  ((∀ d, answer ≠ VDict d) →
   (engage_conversation dumps self utterance w).2 = Raise TypeError).
Proof.
  intros Hreply Hstatus Hjson.
  assert ((engage_conversation dumps self utterance w).2
          = (getitem answer "speech" ≫= λ speech, getitem speech "plain")) as ->.
  { unfold engage_conversation, post, send. rewrite run_bind.
    destruct (truthy (ssl self)); cbv beta zeta; rewrite Hreply; simpl;
      rewrite run_lift, Hstatus; cbv beta iota; rewrite run_lift, Hjson; cbv beta iota;
      rewrite run_lift; by destruct (getitem answer "speech"). }
  split.
  - intros (d & -> & [Hs | (sp & Hs & Hp)]); simpl; rewrite Hs; [done|]. simpl.
    by rewrite Hp.
  - intros Hno. destruct answer; try done. by destruct (Hno d).
Qed.

Lemma engage_conversation_malformed_witness :
  (engage_conversation Demo.show Demo.ha "turn on the lamp"
     (Demo.answering 200 (VDict {[ "speech" := VDict ∅ ]}))).2 = Raise KeyError.
Proof.
  apply (engage_conversation_malformed Demo.show Demo.ha "turn on the lamp"
           (Demo.answering 200 (VDict {[ "speech" := VDict ∅ ]}))
           {| status_code := 200; json := Ok (VDict {[ "speech" := VDict ∅ ]}) |} []
           (VDict {[ "speech" := VDict ∅ ]}) eq_refl eq_refl eq_refl).
  eexists. split; [reflexivity|]. right. exists ∅. split; compute_done.
Defined.

(** ** Base URL *)

Lemma append_nil_r x : x +:+ "" = x.
Proof.
  induction x as [|a x IH]; [done|].
  change (String a (x +:+ "") = String a x). by rewrite IH.
Qed.

Lemma append_assoc x y z : (x +:+ y) +:+ z = x +:+ y +:+ z.
Proof.
  induction x as [|a x IH]; [done|].
  change (String a ((x +:+ y) +:+ z) = String a (x +:+ y +:+ z)). by rewrite IH.
Qed.

Lemma prefix_append p s : String.prefix p (p +:+ s) = true.
Proof.
  induction p as [|a p IH]; [by destruct s|].
  change (String.prefix (String a p) (String a (p +:+ s)) = true). simpl.
  by destruct (ascii_dec a a).
Qed.

(** X17. The base URL of a client starts with [https://] exactly when
    the [ssl] entry of the mapping is truthy, and it ends with the host
    alone when the [port_number] entry is falsy ([None], 0 or an empty
    string), with a colon and the port otherwise. *)
Theorem init_url fmt d s v ip token port :
  d !! "ssl" = Some s →
  d !! "verify" = Some v →
  d !! "ip_address" = Some ip →
  d !! "token" = Some token →
  d !! "port_number" = Some port →
  ∃ c, __init__ fmt (VDict d) = Ok c ∧
       startswith "https://" (url c) = truthy s ∧
       url c = (if truthy s then "https://" else "http://") +:+ fmt ip
               +:+ (if truthy port then ":" +:+ fmt port else "").
Proof.
  intros Hs Hv Hip Htoken Hport.
  unfold __init__. simpl. rewrite Hs. simpl. rewrite Hv. simpl.
  rewrite Hip. simpl. rewrite Htoken. simpl. rewrite Hport. simpl.
  eexists. split; [reflexivity|]. simpl.
  assert (truthy (py_or s (VBool false)) = truthy s) as ->.
  { unfold py_or. by destruct (truthy s) eqn:Hts. }
  unfold startswith.
  destruct (truthy s), (truthy port); rewrite ?append_nil_r, ?append_assoc;
    (split; [|done]).
  - apply prefix_append.
  - apply prefix_append.
  - reflexivity.
  - reflexivity.
Qed.

Lemma init_url_witness :
  ∃ c, __init__ Demo.show (Demo.config (VBool true) VNone) = Ok c ∧
       url c = "https://10.0.0.2:8123".
Proof.
  destruct (init_url Demo.show
              {[ "ssl" := VBool true; "verify" := VNone; "ip_address" := VStr "10.0.0.2";
                 "token" := VStr "abc"; "port_number" := VInt 8123 ]}
              (VBool true) VNone (VStr "10.0.0.2") (VStr "abc") (VInt 8123))
    as (c & Hc & _ & Hurl); [compute_done .. |].
  exists c. split; [exact Hc|]. rewrite Hurl. vm_compute. reflexivity.
Defined.
